(** * linode-tools: the kube-ufw and kube-nginx reconciliation loops

    A shallow embedding of the two Go programs of the repository: the
    load-balancer program [cmd/kube-nginx/main.go] and the firewall program,
    which shares [isDiff] and the shape of [getKubeNodes] and [main] with it
    and has a renderer and a writer of its own.  Log output is not part of
    the embedding. *)

From Stdlib Require Import Strings.Byte Strings.Ascii Strings.String.
From stdpp Require Import gmap strings list pretty.

Open Scope string_scope.
Open Scope list_scope.

(** ** The parts of Go's standard library the programs call *)

Module Go.

(** [strings.Split(s, sep)] for a one-byte separator: the fields between
    the occurrences of [sep]; always at least one field. *)
Fixpoint Split (s : string) (sep : ascii) : list string :=
  match s with
  | EmptyString => [EmptyString]
  | String c rest =>
      if Ascii.eqb c sep then EmptyString :: Split rest sep
      else match Split rest sep with
           | [] => [String c EmptyString]
           | f :: fs => String c f :: fs
           end
  end.

(** [strings.Join] *)
Definition Join (elems : list string) (sep : string) : string :=
  String.concat sep elems.

(** [net.IP] is a byte slice.  The nil slice and the empty slice both have
    length 0 and no operation of the programs tells them apart. *)
Abbreviation IP := (list byte).

Definition IPv4len : nat := 4.
Definition IPv6len : nat := 16.

Definition v4InV6Prefix : IP :=
  [x00; x00; x00; x00; x00; x00; x00; x00; x00; x00; xff; xff].

Definition isZeros (p : IP) : bool := forallb (Byte.eqb x00) p.

(** [IP.To4]: the 4-byte form of an IPv4 address, nil otherwise. *)
Definition To4 (ip : IP) : IP :=
  if (length ip =? IPv4len)%nat then ip
  else if (length ip =? IPv6len)%nat && isZeros (take 10 ip)
          && match ip !! 10%nat, ip !! 11%nat with
             | Some a, Some b => Byte.eqb a xff && Byte.eqb b xff
             | _, _ => false
             end
       then drop 12 ip
       else [].

Definition hexDigit (n : N) : ascii :=
  match String.get (N.to_nat n) "0123456789abcdef" with
  | Some c => c
  | None => "?"%char
  end.

(** two lower-case hexadecimal digits per byte *)
Fixpoint hexString (b : list byte) : string :=
  match b with
  | [] => ""
  | x :: b' =>
      let n := Byte.to_N x in
      String (hexDigit (n / 16)) (String (hexDigit (n mod 16)) (hexString b'))
  end.

(** [appendHex]: a 16-bit group without leading zeros *)
Definition appendHex (i : N) : string :=
  if (i =? 0)%N then "0"
  else
    let nib j := ((i / 16 ^ j) mod 16)%N in
    let dig j := if (0 <? i / 16 ^ j)%N then String (hexDigit (nib j)) "" else "" in
    dig 3%N ++ dig 2%N ++ dig 1%N ++ dig 0%N.

(** the eight 16-bit groups of a 16-byte address *)
Fixpoint groups (p : list byte) : list N :=
  match p with
  | hi :: lo :: p' => (Byte.to_N hi * 256 + Byte.to_N lo)%N :: groups p'
  | _ => []
  end.

Fixpoint zeroRun (gs : list N) : nat :=
  match gs with
  | 0%N :: gs' => S (zeroRun gs')
  | _ => 0
  end.

(** the first longest run of at least two zero groups, as [(start, end)] *)
Fixpoint longestZeros (i : nat) (gs : list N) (best : nat * nat) : nat * nat :=
  match gs with
  | [] => best
  | _ :: gs' =>
      let l := zeroRun gs in
      let best' :=
        if (2 <=? l)%nat && (best.2 - best.1 <? l)%nat then (i, i + l)%nat else best in
      longestZeros (S i) gs' best'
  end.

Definition string6 (ip : IP) : string :=
  let gs := groups ip in
  let '(zs, ze) := longestZeros 0 gs (255, 255)%nat in
  if (zs <? 8)%nat
  then Join (appendHex <$> take zs gs) ":" ++ "::"
       ++ Join (appendHex <$> drop ze gs) ":"
  else Join (appendHex <$> gs) ":".

Definition string4 (p4 : IP) : string :=
  Join ((fun b => pretty (Byte.to_N b)) <$> p4) ".".

(** [IP.String]: the canonical text form the programs compare and print. *)
Definition IP_String (ip : IP) : string :=
  if (length ip =? 0)%nat then "<nil>"
  else if negb (length ip =? IPv4len)%nat && negb (length ip =? IPv6len)%nat
       then "?" ++ hexString ip
       else let p4 := To4 ip in
            if (length p4 =? IPv4len)%nat then string4 p4 else string6 ip.

(** The operands the programs pass to [fmt.Sprintf]. *)
Inductive Arg :=
| AString (s : string)
| AInt (n : Z)
| AIP (ip : IP).

(** An operand as [%v] prints it; [net.IP] has a [String] method. *)
Definition plain (a : Arg) : string :=
  match a with
  | AString s => s
  | AInt n => pretty n
  | AIP ip => IP_String ip
  end.

Definition typeName (a : Arg) : string :=
  match a with
  | AString _ => "string"
  | AInt _ => "int"
  | AIP _ => "net.IP"
  end.

(** One verb applied to one operand.  Of the verbs only [%s], [%d] and
    [%v] are modelled; any other verb, and [%s] or [%d] on an operand that
    does not take it, prints in Go's bad-verb form. *)
Definition verb (v : ascii) (a : Arg) : string :=
  match v, a with
  | "v"%char, _ => plain a
  | "s"%char, AString _ => plain a
  | "s"%char, AIP _ => plain a
  | "d"%char, AInt _ => plain a
  | "d"%char, AIP ip => "[" ++ Join ((fun b => pretty (Byte.to_N b)) <$> ip) " " ++ "]"
  | _, _ => "%!" ++ String v ("(" ++ typeName a ++ "=" ++ plain a ++ ")")
  end.

(** What is printed for operands the format has no verb for. *)
Definition extra (args : list Arg) : string :=
  match args with
  | [] => ""
  | _ =>
      "%!(EXTRA "
      ++ Join ((fun a => (typeName a ++ "=" ++ plain a)%string) <$> args) ", " ++ ")"
  end.

Fixpoint Sprintf (format : string) (args : list Arg) : string :=
  match format with
  | EmptyString => extra args
  | String "%" EmptyString => "%!(NOVERB)" ++ extra args
  | String "%" (String "%" rest) => String "%" (Sprintf rest args)
  | String "%" (String v rest) =>
      match args with
      | a :: args' => verb v a ++ Sprintf rest args'
      | [] => "%!" ++ String v ("(MISSING)" ++ Sprintf rest [])
      end
  | String c rest => String c (Sprintf rest args)
  end.

End Go.

Import Go.

(** ** SetDiffer: [isDiff]

    Both programs carry the same text of [isDiff]
    (cmd/kube-nginx/main.go:160-191, and lines 196-227 of the firewall
    variant).  [len] and the match counter are Go [int]s; the counter never
    exceeds [len(oldHosts)], so no 64-bit wrap-around can occur and the
    counter is embedded as an unbounded [Z]. *)

Definition len {A} (s : list A) : Z := Z.of_nat (length s).

(** The inner loop [for _, k := range newHosts] with its [break]. *)
Fixpoint scan_newHosts (v : IP) (newHosts : list IP) (matches : Z) : Z :=
  match newHosts with
  | [] => matches
  | k :: rest =>
      if String.eqb (IP_String v) (IP_String k) then (matches + 1)%Z
      else scan_newHosts v rest matches
  end.

(** The outer loop [for _, v := range oldHosts], started with [matches := 0]. *)
Definition count_matches (oldHosts newHosts : list IP) : Z :=
  fold_left (fun matches v => scan_newHosts v newHosts matches) oldHosts 0%Z.

Definition isDiff (oldHosts newHosts : list IP) : bool :=
  if negb (len newHosts =? len oldHosts)%Z then true
  else
    let matches := count_matches oldHosts newHosts in
    if negb (matches =? len newHosts)%Z then true
    else false.

(** Some member of [hosts] has the canonical string of [v]. *)
Definition hasMatch (v : IP) (hosts : list IP) : bool :=
  existsb (fun k => String.eqb (IP_String v) (IP_String k)) hosts.

(** The contract of the differ as the specification words it:
    [Changed(previous, current)]. *)
Definition Changed_spec (previous current : list IP) : Prop :=
  length previous ≠ length current
  ∨ ∃ c, c ∈ current ∧ ∀ p, p ∈ previous → IP_String c ≠ IP_String p.


(** ** The world outside the process: files, the inventory, observable calls *)

(** What the file system holds at a path.  With [present] set it is a
    regular file: its bytes and whether this process may open it for reading
    or for writing.  With [present] unset there is no file at the path and
    none can be created there, the directory of the path being missing or
    closed to the process.  A path the file system has no entry for holds no
    file and lies in a directory in which the process may create one. *)
Record File := { data : string; readable : bool; writable : bool; present : bool }.

(** An operation of the loop that the outside world can observe. *)
Inductive Event :=
| EvQuery                                      (* the node-list query of [getKubeNodes] *)
| EvRender                                     (* a call of [buildUFW] or [buildNginx] *)
| EvWrite (path : string) (opened : bool)      (* a writer ran; did it get the file open? *)
| EvExec (cmd : string) (args : list string)   (* [exec.Command(cmd, args...).Start()] *)
| EvSleep (seconds : Z).                       (* [time.Sleep(seconds * time.Second)] *)

Record World := { fs : gmap string File; trace : list Event }.

(** Effectful code is a state transformer over the world. *)
Definition Run (A : Type) : Type := World → A * World.

#[global] Instance Run_ret : MRet Run := λ A a w, (a, w).
#[global] Instance Run_bind : MBind Run :=
  λ A B k m w, let '(a, w') := m w in k a w'.

Notation "m ;; k" := (mbind (λ _ : unit, k) m)
  (at level 100, k at level 200, right associativity, only parsing) : stdpp_scope.

Definition emit (e : Event) : Run unit :=
  λ w, (tt, {| fs := fs w; trace := trace w ++ [e] |}).

Definition files : Run (gmap string File) := λ w, (fs w, w).

Definition store (path : string) (f : File) : Run unit :=
  λ w, (tt, {| fs := <[path := f]> (fs w); trace := trace w |}).

(** The events a computation adds to the trace. *)
Definition events {A} (m : Run A) (w : World) : list Event :=
  drop (length (trace w)) (trace (m w).2).

Module os.

(** [os.Open]: the bytes of an existing readable file. *)
Definition Open (fs : gmap string File) (name : string) : option string :=
  match fs !! name with
  | Some f => if present f && readable f then Some (data f) else None
  | None => None
  end.

(** A file created by mode 0644 / 0666 belongs to the process. *)
Definition created : File :=
  {| data := ""; readable := true; writable := true; present := true |}.

(** [os.OpenFile(name, O_CREATE|O_WRONLY, 0644)]: the file as it will be
    written on, its present bytes kept; [None] when the open fails, be it
    that the file may not be written or that it is not there and cannot be
    created. *)
Definition OpenFile_CREATE_WRONLY (fs : gmap string File) (name : string) : option File :=
  match fs !! name with
  | Some f => if present f && writable f then Some f else None
  | None => Some created
  end.

(** [os.Create(name)], that is [OpenFile(name, O_RDWR|O_CREATE|O_TRUNC, 0666)]:
    the file emptied; [None] when the open fails, be it that the file may
    not be read and written or that it is not there and cannot be created. *)
Definition Create (fs : gmap string File) (name : string) : option File :=
  match fs !! name with
  | Some f =>
      if present f && readable f && writable f
      then Some {| data := ""; readable := readable f; writable := writable f;
                   present := true |}
      else None
  | None => Some created
  end.

Fixpoint skip (n : nat) (s : string) : string :=
  match n, s with
  | S n', String _ s' => skip n' s'
  | _, _ => s
  end.

(** Writing [p] at offset 0 of a file holding [old]: bytes beyond
    [len(p)] stay as they were. *)
Definition WriteAt0 (old p : string) : string :=
  p ++ skip (String.length p) old.

End os.

Module bufio.

Definition MaxScanTokenSize : N := 65536.

(** the lines of [s] as [ScanLines] cuts them, before the carriage return
    is dropped; a final newline opens no further line *)
Fixpoint rawLines (s : string) : list string :=
  match s with
  | EmptyString => []
  | String c rest =>
      if Ascii.eqb c "010" then EmptyString :: rawLines rest
      else match rawLines rest with
           | [] => [String c EmptyString]
           | l :: ls => String c l :: ls
           end
  end.

Fixpoint dropCR (l : string) : string :=
  match l with
  | EmptyString => EmptyString
  | String c EmptyString => if Ascii.eqb c "013" then EmptyString else l
  | String c rest => String c (dropCR rest)
  end.

(** scanning stops (with [ErrTooLong], which the caller never looks at)
    at the first line that does not fit the buffer *)
Fixpoint fitting (ls : list string) : list string :=
  match ls with
  | [] => []
  | l :: ls' =>
      if (N.of_nat (String.length l) <? MaxScanTokenSize)%N then l :: fitting ls' else []
  end.

(** The successive values of [scanner.Text()] over a file's bytes. *)
Definition Scan (dat : string) : list string :=
  dropCR <$> fitting (rawLines dat).

End bufio.

(** ** AddressSource: what the cluster answers to one call of [getKubeNodes] *)

(** A node of the inventory; only its annotations are read. *)
Record Node := { Annotations : gmap string string }.

Inductive KubeReply :=
| ConfigFails (err : string)     (* [clientcmd.BuildConfigFromFlags] returns [err] *)
| ClientFails (err : string)     (* [kubernetes.NewForConfig] returns [err] *)
| ListFails (err : string)       (* [Nodes().List] returns [err] *)
| Listed (Items : list Node).    (* the query succeeds *)

(** A Go call either returns or panics. *)
Inductive Outcome (A : Type) :=
| Returned (a : A)
| Panicked (msg : string).
Arguments Returned {A} a.
Arguments Panicked {A} msg.

Section Collect.

(** [net.ParseIP]: nil (length 0) when the text is not an IP address. *)
Variable ParseIP : string → IP.

(** [strings.Split(strIP, "/")[0]] *)
Definition firstField (strIP : string) : string :=
  default EmptyString (head (Split strIP "/")).

(** The body of [for _, val := range nodes.Items], shared by both programs. *)
Definition collect (results : list IP) (val : Node) : list IP :=
  match Annotations val !! "projectcalico.org/IPv4Address" with
  | Some strIP =>
      let IPAddress := ParseIP (firstField strIP) in
      results ++ [IPAddress]
  | None => results
  end.

End Collect.

(** ** The firewall variant (kube-ufw) *)
Module KubeUFW.
Section WithParseIP.

Variable ParseIP : string → IP.

Definition fixedRules : list string :=
  [ "";
    "### tuple ### allow any 22 0.0.0.0/0 any 0.0.0.0/0 in";
    "-A ufw-user-input -p tcp --dport 22 -j ACCEPT";
    "-A ufw-user-input -p udp --dport 22 -j ACCEPT";
    "" ].

Definition UFWReload (ufwcmd : string) : Run unit :=
  emit (EvExec ufwcmd ["reload"]).

(** The variables of the scanning loop of [buildUFW]. *)
Record Scanned := {
  startConfig : list string;
  endConfig : list string;
  blnStart : bool;
  blnEnd : bool
}.

(** One turn of [for scanner.Scan()], [text] being [scanner.Text()]. *)
Definition scanLine (st : Scanned) (text : string) : Scanned :=
  let startConfig' :=
    if negb (blnStart st) then startConfig st ++ [text] else startConfig st in
  let blnStart' :=
    if String.eqb text "### RULES ###" then true else blnStart st in
  let blnEnd' :=
    if String.eqb text "### END RULES ###" then true else blnEnd st in
  let endConfig' :=
    if blnEnd' then endConfig st ++ [text] else endConfig st in
  {| startConfig := startConfig'; endConfig := endConfig';
     blnStart := blnStart'; blnEnd := blnEnd' |}.

(** One turn of [for _, n := range ipList]. *)
Definition appendRule (newConfig : list string) (n : IP) : list string :=
  let newConfig :=
    newConfig ++ [Sprintf "### tuple ### allow tcp 27017 0.0.0.0/0 any %s in"
                          [AString (IP_String n)]] in
  let newConfig :=
    newConfig ++ [Sprintf "-A ufw-user-input -p tcp --dport 27017 -s %s -j ACCEPT"
                          [AString (IP_String n)]] in
  newConfig ++ [""].

Definition buildUFW (fs : gmap string File) (ipList : list IP) (rules : string)
  : list string :=
  let totalConfig : list string := [] in
  match os.Open fs rules with
  | None => totalConfig
  | Some dat =>
      let st :=
        fold_left scanLine (bufio.Scan dat)
          {| startConfig := []; endConfig := []; blnStart := false; blnEnd := false |} in
      let newConfig := [] ++ fixedRules in
      let newConfig := fold_left appendRule ipList newConfig in
      let totalConfig := totalConfig ++ startConfig st in
      let totalConfig := totalConfig ++ newConfig in
      let totalConfig := totalConfig ++ endConfig st in
      totalConfig
  end.

(** The bytes [datawriter] is handed, in order. *)
Definition buffered (ufwConfig : list string) : string :=
  fold_left (fun buf data => (buf ++ (data ++ String "010" ""))%string) ufwConfig "".

Definition writeUFW (ufwConfig : list string) (rules : string) : Run unit :=
  fs ← files;
  match os.OpenFile_CREATE_WRONLY fs rules with
  | None =>
      (* [file] is nil: every write and the flush fail, unnoticed *)
      emit (EvWrite rules false)
  | Some f =>
      store rules {| data := os.WriteAt0 (data f) (buffered ufwConfig);
                     readable := readable f; writable := writable f;
                     present := true |};;
      emit (EvWrite rules true)
  end.

(** Every failure inside [getKubeNodes] is a [panic]. *)
Definition getKubeNodes (reply : KubeReply) : Run (Outcome (list IP * option string)) :=
  emit EvQuery;;
  let results : list IP := [] in
  match reply with
  | ConfigFails err => mret (Panicked err)
  | ClientFails err => mret (Panicked err)
  | ListFails err => mret (Panicked err)
  | Listed Items => mret (Returned (fold_left (collect ParseIP) Items results, None))
  end.

(** One turn of the [for] loop of the goroutine in [main]; [rules] and
    [ufwcmd] are the two flags.  The result is the next [oldHosts], or
    the panic that ends the process. *)
Definition cycle (rules ufwcmd : string) (reply : KubeReply) (oldHosts : list IP)
  : Run (Outcome (list IP)) :=
  r ← getKubeNodes reply;
  match r with
  | Panicked msg => mret (Panicked msg)
  | Returned (newHosts, _) =>
      (if isDiff newHosts oldHosts then
         emit EvRender;;
         fs ← files;
         let ufwConfig := buildUFW fs newHosts rules in
         writeUFW ufwConfig rules;;
         UFWReload ufwcmd;;
         emit (EvSleep 5)
       else mret tt);;
      emit (EvSleep 5);;
      mret (Returned newHosts)
  end.

(** The loop over the successive answers of the cluster. *)
Fixpoint loop (rules ufwcmd : string) (replies : list KubeReply) (oldHosts : list IP)
  : Run (Outcome (list IP)) :=
  match replies with
  | [] => mret (Returned oldHosts)
  | reply :: later =>
      r ← cycle rules ufwcmd reply oldHosts;
      match r with
      | Panicked msg => mret (Panicked msg)
      | Returned oldHosts' => loop rules ufwcmd later oldHosts'
      end
  end.

End WithParseIP.
End KubeUFW.

(** ** The load-balancer variant (cmd/kube-nginx/main.go) *)
Module KubeNginx.

Record upstream := { upstream_name : string; port : Z }.

Section WithParseIP.

Variable ParseIP : string → IP.

Definition NginxReload (systemctlcmd : string) : Run unit :=
  emit (EvExec systemctlcmd ["reload"; "nginx"]).

(** The list [buildNginx] assembles by five [append]s before it renders. *)
Definition upstreams : list upstream :=
  let upstreams : list upstream := [] in
  let diy := {| upstream_name := "diy"; port := 32016 |} in
  let upstreams := upstreams ++ [diy] in
  let dockerui := {| upstream_name := "dockerui"; port := 32018 |} in
  let upstreams := upstreams ++ [dockerui] in
  let tryingadventure := {| upstream_name := "tryingadventure"; port := 32020 |} in
  let upstreams := upstreams ++ [tryingadventure] in
  let devops := {| upstream_name := "devops"; port := 32021 |} in
  let upstreams := upstreams ++ [devops] in
  let monitor := {| upstream_name := "monitor"; port := 32699 |} in
  upstreams ++ [monitor].

(** One turn of the inner loop [for _, i := range ipList]. *)
Definition appendServer (k : upstream) (totalConfig : list string) (i : IP) : list string :=
  totalConfig ++ [Sprintf "server %s:%d weight=100;" [AIP i; AInt (port k)]].

(** One turn of the outer loop [for _, k := range upstreams]. *)
Definition appendUpstream (ipList : list IP) (totalConfig : list string) (k : upstream)
  : list string :=
  let totalConfig :=
    totalConfig ++ [Sprintf "upstream %s {" [AString (upstream_name k)]] in
  let totalConfig := fold_left (appendServer k) ipList totalConfig in
  totalConfig ++ ["}"].

(** The two loops over an arbitrary group list. *)
Definition renderUpstreams (groups : list upstream) (ipList : list IP) : list string :=
  fold_left (appendUpstream ipList) groups [].

Definition buildNginx (ipList : list IP) : list string :=
  renderUpstreams upstreams ipList.

(** The bytes the calls of [fmt.Fprintln(file, data)] write, in order. *)
Definition printed (ngixConfig : list string) : string :=
  fold_left (fun out data => (out ++ (data ++ String "010" ""))%string) ngixConfig "".

Definition writeNginx (ngixConfig : list string) (config : string) : Run unit :=
  fs ← files;
  match os.Create fs config with
  | None =>
      (* [file] is nil: every [Fprintln] fails, unnoticed *)
      emit (EvWrite config false)
  | Some f =>
      store config {| data := os.WriteAt0 (data f) (printed ngixConfig);
                      readable := readable f; writable := writable f;
                      present := true |};;
      emit (EvWrite config true)
  end.

(** Every failure inside [getKubeNodes] is returned to the caller. *)
Definition getKubeNodes (reply : KubeReply) : Run (list IP * option string) :=
  emit EvQuery;;
  let results : list IP := [] in
  match reply with
  | ConfigFails err => mret (results, Some err)
  | ClientFails err => mret (results, Some err)
  | ListFails err => mret (results, Some err)
  | Listed Items => mret (fold_left (collect ParseIP) Items results, None)
  end.

(** One turn of the [for] loop of the goroutine in [main]; [nginxconfig]
    and [systemctl] are the two flags.  The result is the next
    [oldHosts]. *)
Definition cycle (nginxconfig systemctl : string) (reply : KubeReply)
    (oldHosts : list IP) : Run (list IP) :=
  '(newHosts, err) ← getKubeNodes reply;
  match err with
  | Some _ =>
      (* [continue]: straight to the next turn *)
      mret oldHosts
  | None =>
      (if isDiff newHosts oldHosts then
         emit EvRender;;
         let configs := buildNginx newHosts in
         writeNginx configs nginxconfig;;
         emit (EvSleep 5);;
         NginxReload systemctl
       else mret tt);;
      emit (EvSleep 5);;
      mret newHosts
  end.

(** The loop over the successive answers of the cluster. *)
Fixpoint loop (nginxconfig systemctl : string) (replies : list KubeReply)
    (oldHosts : list IP) : Run (list IP) :=
  match replies with
  | [] => mret oldHosts
  | reply :: later =>
      oldHosts' ← cycle nginxconfig systemctl reply oldHosts;
      loop nginxconfig systemctl later oldHosts'
  end.

End WithParseIP.
End KubeNginx.

(** ** Sample data on which the programs are run below *)

(** A reader of dotted-decimal IPv4 text in the manner of [net.ParseIP]:
    four fields of one to three digits without a leading zero, each at most
    255, give the 16-byte form; any other text gives nil.  It stands for
    [net.ParseIP] wherever a program is run on a sample inventory. *)
Module Sample.

Fixpoint decimal (s : string) (acc : N) : option N :=
  match s with
  | EmptyString => Some acc
  | String c rest =>
      match Ascii.is_nat c with
      | Some d => decimal rest (acc * 10 + N.of_nat d)
      | None => None
      end
  end.

Definition octet (f : string) : option byte :=
  match f with
  | EmptyString => None
  | String "0" (String _ _) => None
  | _ =>
      if (3 <? String.length f)%nat then None
      else n ← decimal f 0; Byte.of_N n
  end.

Definition ParseIP (s : string) : IP :=
  match mapM octet (Split s ".") with
  | Some [a; b; c; d] => v4InV6Prefix ++ [a; b; c; d]
  | _ => []
  end.

Definition ip1 : IP := [x0a; x00; x00; x01].
Definition ip2 : IP := [x0a; x00; x00; x02].

Definition key : string := "projectcalico.org/IPv4Address".

(** a node with the address annotation, one without, one with a value
    that is no address *)
Definition node (cidr : string) : Node := {| Annotations := {[ key := cidr ]} |}.
Definition bare : Node := {| Annotations := {[ "kubernetes.io/os" := "linux" ]} |}.
Definition odd : Node := node "not-an-address".

Definition rules : string := "/etc/ufw/user.rules".
Definition ufwcmd : string := "/usr/sbin/ufw".
Definition nginxconfig : string := "/etc/nginx/upstreams/upstreams.conf".
Definition systemctl : string := "/bin/systemctl".

Definition nl : string := String "010" "".

(** a rules file with operator-written lines around the generated region *)
Definition user_rules : string :=
  "*filter" ++ nl ++ ":ufw-user-input - [0:0]" ++ nl ++
  "### RULES ###" ++ nl ++
  "-A ufw-user-input -s 192.0.2.7 -j ACCEPT" ++ nl ++
  "### END RULES ###" ++ nl ++
  "COMMIT" ++ nl.

Definition file (bytes : string) : File :=
  {| data := bytes; readable := true; writable := true; present := true |}.

Definition locked (bytes : string) : File :=
  {| data := bytes; readable := true; writable := false; present := true |}.

Definition world (fs : gmap string File) : World := {| fs := fs; trace := [] |}.

End Sample.

(** ** Vocabulary of the statements below *)

Definition startMarker : string := "### RULES ###".
Definition endMarker : string := "### END RULES ###".

(** The three lines the firewall renderer generates for one address. *)
Definition rulePair (n : IP) : list string :=
  [ ("### tuple ### allow tcp 27017 0.0.0.0/0 any " ++ (IP_String n ++ " in"))%string;
    ("-A ufw-user-input -p tcp --dport 27017 -s " ++ (IP_String n ++ " -j ACCEPT"))%string;
    "" ].

(** The region between the markers: static rules, then the rule pairs. *)
Definition generatedRegion (ipList : list IP) : list string :=
  KubeUFW.fixedRules ++ concat (rulePair <$> ipList).

Definition serverLine (port : Z) (i : IP) : string :=
  ("server " ++ (IP_String i ++ (":" ++ (pretty port ++ " weight=100;"))))%string.

(** The block of one upstream group. *)
Definition upstreamBlock (name : string) (port : Z) (ipList : list IP) : list string :=
  [("upstream " ++ (name ++ " {"))%string] ++ (serverLine port <$> ipList) ++ ["}"].

(** The lines, each followed by a newline, one after the other. *)
Definition serialized (lines : list string) : string :=
  fold_right (fun l rest => (l ++ (String "010" "" ++ rest))%string) "" lines.

(** The reading of "a reload only after a successful write" on the events
    of one cycle. *)
Definition reload_follows_success (evs : list Event) : Prop :=
  ∀ cmd args, EvExec cmd args ∈ evs → ∃ path, EvWrite path true ∈ evs.

(** The failures of the inventory: it cannot be reached, or the query fails. *)
Definition failed (reply : KubeReply) : Prop :=
  match reply with
  | Listed _ => False
  | _ => True
  end.

(** The events of a cycle that stand for rendering, writing and reloading. *)
Definition acts (e : Event) : bool :=
  match e with
  | EvRender | EvWrite _ _ | EvExec _ _ => true
  | EvQuery | EvSleep _ => false
  end.

(** The addresses [getKubeNodes] gathers from a node list. *)
Definition collected (ParseIP : string → IP) (Items : list Node) : list IP :=
  fold_left (collect ParseIP) Items [].

(** Did an open succeed? *)
Definition opened (f : option File) : bool :=
  match f with
  | Some _ => true
  | None => false
  end.

(** ** Vocabulary of the further properties *)

(** The lines up to and including the first [marker]; all of them if there
    is none. *)
Fixpoint uptoFirst (marker : string) (lines : list string) : list string :=
  match lines with
  | [] => []
  | l :: ls => if String.eqb l marker then [l] else l :: uptoFirst marker ls
  end.

(** The lines from the first [marker] on; none if there is none. *)
Fixpoint fromFirst (marker : string) (lines : list string) : list string :=
  match lines with
  | [] => []
  | l :: ls => if String.eqb l marker then l :: ls else fromFirst marker ls
  end.

(** Does the byte [c] occur in [s]? *)
Fixpoint occurs (c : ascii) (s : string) : bool :=
  match s with
  | EmptyString => false
  | String a rest => Ascii.eqb a c || occurs c rest
  end.

Fixpoint lastByte (s : string) : option ascii :=
  match s with
  | EmptyString => None
  | String a EmptyString => Some a
  | String _ rest => lastByte rest
  end.

(** A line the scanner gives back as it was written: no newline in it, no
    carriage return at its end, shorter than the scanner's buffer. *)
Definition scannable (l : string) : bool :=
  negb (occurs "010" l)
  && negb (if lastByte l is Some c then Ascii.eqb c "013" else false)
  && (N.of_nat (String.length l) <? bufio.MaxScanTokenSize)%N.

(** The address a node contributes to the list of [getKubeNodes], if any. *)
Definition contributes (ParseIP : string → IP) (val : Node) : option IP :=
  (fun strIP => ParseIP (firstField strIP))
    <$> (Annotations val !! "projectcalico.org/IPv4Address").

Definition isRender (e : Event) : bool := if e is EvRender then true else false.
Definition isWrite (e : Event) : bool := if e is EvWrite _ _ then true else false.
Definition isExec (e : Event) : bool := if e is EvExec _ _ then true else false.
Definition isSleep (e : Event) : bool := if e is EvSleep _ then true else false.

(** How many events of a kind a trace holds. *)
Definition count (kind : Event → bool) (evs : list Event) : nat :=
  length (filter (fun e => kind e = true) evs).

(** The rendering, writing and reloading events of a trace, in order. *)
Definition actions (evs : list Event) : list Event :=
  filter (fun e => acts e = true) evs.

(** A sequence of render, write, reload; render, write, reload; ... *)
Fixpoint triples (evs : list Event) : bool :=
  match evs with
  | [] => true
  | EvRender :: EvWrite _ _ :: EvExec _ _ :: rest => triples rest
  | _ => false
  end.

(** ** The differ at its call site, and the frame on the bytes of the file *)

(** The differ as both loops call it, [isDiff(newHosts, oldHosts)]: the
    freshly fetched list goes first, the snapshot second. *)
Definition Changed (previous current : list IP) : bool :=
  isDiff current previous.

(** A line of a file that the scanner hands on as it stands in the file: it
    has no carriage return at its end and is shorter than the scanner's
    buffer. *)
Definition handedOn (l : string) : bool :=
  negb (if lastByte l is Some c then Ascii.eqb c "013" else false)
  && (N.of_nat (String.length l) <? bufio.MaxScanTokenSize)%N.

(** The frame of a rules file is kept, said of the lines as the file holds
    them ([bufio.rawLines]: the bytes between its newlines): whenever they
    hold each marker once, the start marker first, the rendering begins with
    the lines up to the start marker and ends with the lines from the end
    marker on. *)
Definition frame_kept (fs : gmap string File) (rules : string) (ipList : list IP) : Prop :=
  ∀ dat pre mid post,
    os.Open fs rules = Some dat →
    bufio.rawLines dat = pre ++ startMarker :: mid ++ endMarker :: post →
    (startMarker ∉ pre ++ mid ++ post) →
    (endMarker ∉ pre ++ mid ++ post) →
    ∃ middle,
      KubeUFW.buildUFW fs ipList rules
      = (pre ++ [startMarker]) ++ middle ++ (endMarker :: post).

(** A rules file saved with a carriage return at the end of its first line. *)
Definition rules_with_cr : string :=
  "*filter" ++ String "013" "" ++ Sample.nl ++
  "### RULES ###" ++ Sample.nl ++
  "### END RULES ###" ++ Sample.nl ++
  "COMMIT" ++ Sample.nl.

(** [s] written [2 ^ k] times over. *)
Fixpoint doubled (k : nat) (s : string) : string :=
  match k with
  | 0 => s
  | S k' => doubled k' (s ++ s)
  end.

(** A file whose second line is 65536 bytes long. *)
Definition rules_with_long_line : string :=
  "a" ++ Sample.nl ++ doubled 16 "a" ++ Sample.nl ++ "b" ++ Sample.nl.
Example IP_String_v4 : Go.IP_String [x0a; x00; x00; x05] = "10.0.0.5".
Proof. reflexivity. Qed.

Example IP_String_v4in6 :
  Go.IP_String (Go.v4InV6Prefix ++ [xc0; xa8; x01; xfe]) = "192.168.1.254".
Proof. reflexivity. Qed.

Example IP_String_v6 :
  Go.IP_String [x20; x01; x0d; xb8; x00; x00; x00; x00;
                 x00; x00; x00; x00; x00; x00; x00; x01] = "2001:db8::1".
Proof. reflexivity. Qed.

Example IP_String_nil : Go.IP_String [] = "<nil>".
Proof. reflexivity. Qed.

Example Sprintf_server :
  Go.Sprintf "server %s:%d weight=100;" [Go.AIP [x0a; x00; x00; x01]; Go.AInt 9090]
  = "server 10.0.0.1:9090 weight=100;".
Proof. reflexivity. Qed.

Example Split_cidr : Go.Split "10.0.0.5/24" "/" = ["10.0.0.5"; "24"].
Proof. reflexivity. Qed.

Example isDiff_empty : isDiff [] [] = false.
Proof. reflexivity. Qed.

Example isDiff_singleton : isDiff [] [Sample.ip1] = true.
Proof. reflexivity. Qed.

Example isDiff_reordered : isDiff [Sample.ip1; Sample.ip2] [Sample.ip2; Sample.ip1] = false.
Proof. reflexivity. Qed.

Example isDiff_dup_left : isDiff [Sample.ip1; Sample.ip1] [Sample.ip1; Sample.ip2] = false.
Proof. reflexivity. Qed.

Example isDiff_dup_right : isDiff [Sample.ip1; Sample.ip2] [Sample.ip1; Sample.ip1] = true.
Proof. reflexivity. Qed.

Section Differ.

Implicit Types (v k : IP) (old new hosts : list IP).

Lemma hasMatch_true v hosts :
  hasMatch v hosts = true ↔ ∃ k, k ∈ hosts ∧ IP_String v = IP_String k.
Proof.
  unfold hasMatch. rewrite existsb_exists. split.
  - intros (k & Hin & Heq). exists k. split.
    + by apply list_elem_of_In.
    + by apply String.eqb_eq.
  - intros (k & Hin & Heq). exists k. split.
    + by apply list_elem_of_In.
    + by apply String.eqb_eq.
Qed.

Lemma hasMatch_false v hosts :
  hasMatch v hosts = false ↔ ∀ k, k ∈ hosts → IP_String v ≠ IP_String k.
Proof.
  rewrite <- not_true_iff_false, hasMatch_true. split.
  - intros Hno k Hin Heq. apply Hno. eauto.
  - intros Hall (k & Hin & Heq). by apply (Hall k).
Qed.

Lemma scan_newHosts_step v new matches :
  scan_newHosts v new matches = (matches + (if hasMatch v new then 1 else 0))%Z.
Proof.
  induction new as [|k rest IH]; simpl.
  - lia.
  - destruct (String.eqb (IP_String v) (IP_String k)); simpl; [lia | exact IH].
Qed.

Lemma fold_scan old new matches :
  fold_left (fun m v => scan_newHosts v new m) old matches
  = (matches + len (filter (fun v => hasMatch v new = true) old))%Z.
Proof.
  revert matches. induction old as [|v old IH]; intros matches; simpl.
  - unfold len. simpl. lia.
  - rewrite IH, scan_newHosts_step, filter_cons. unfold len.
    destruct (hasMatch v new) eqn:Hm.
    + rewrite decide_True by done. simpl length. lia.
    + rewrite decide_False by done. lia.
Qed.

Lemma count_matches_filter old new :
  count_matches old new = len (filter (fun v => hasMatch v new = true) old).
Proof. unfold count_matches. rewrite fold_scan. lia. Qed.

Lemma filter_full {A} (P : A → Prop) `{∀ x, Decision (P x)} (l : list A) :
  length (filter P l) = length l ↔ ∀ x, x ∈ l → P x.
Proof.
  induction l as [|a l IH].
  - split; [intros _ x Hx; by apply elem_of_nil in Hx | done].
  - rewrite filter_cons. pose proof (length_filter P l) as Hle.
    destruct (decide (P a)) as [Ha|Ha]; simpl.
    + split.
      * intros Hlen x [->|Hx]%elem_of_cons; [done|].
        apply IH; [lia | done].
      * intros Hall. f_equal. apply IH. intros x Hx. apply Hall. by right.
    + split; [lia|]. intros Hall. exfalso. apply Ha, Hall. by left.
Qed.

(** What the function computes, in one line. *)
Lemma isDiff_false old new :
  isDiff old new = false
  ↔ length old = length new ∧ ∀ v, v ∈ old → hasMatch v new = true.
Proof.
  unfold isDiff. rewrite count_matches_filter. unfold len.
  destruct (Z.eqb_spec (Z.of_nat (length new)) (Z.of_nat (length old))) as [Hl|Hl];
    simpl.
  - apply Nat2Z.inj in Hl.
    destruct (Z.eqb_spec
                (Z.of_nat (length (filter (fun v => hasMatch v new = true) old)))
                (Z.of_nat (length new))) as [Hm|Hm]; simpl.
    + apply Nat2Z.inj in Hm. rewrite Hl in Hm.
      split; [|done]. intros _. split; [done|].
      by apply (filter_full (fun v => hasMatch v new = true)).
    + split; [done|]. intros [_ Hall]. exfalso. apply Hm. f_equal.
      rewrite Hl. by apply (filter_full (fun v => hasMatch v new = true)).
  - split; [done|]. intros [Hlen _]. exfalso. apply Hl. by rewrite Hlen.
Qed.

(** With pairwise distinct strings on the left and no more members on the
    right, "every left member is matched" turns around. *)
Lemma matched_turns_around old new :
  NoDup (IP_String <$> old) →
  length new = length old →
  (∀ v, v ∈ old → hasMatch v new = true) →
  ∀ k, k ∈ new → hasMatch k old = true.
Proof.
  intros Hnd Hlen Hall k Hk.
  assert (IP_String <$> old ⊆+ IP_String <$> new) as Hsub.
  { apply NoDup_submseteq; [done|]. intros s (v & -> & Hv)%list_elem_of_fmap.
    destruct (proj1 (hasMatch_true v new) (Hall v Hv)) as (k' & Hk' & ->).
    apply list_elem_of_fmap. eauto. }
  apply submseteq_length_Permutation in Hsub; [|rewrite !length_fmap; lia].
  assert (IP_String k ∈ IP_String <$> old) as (v & Heq & Hv)%list_elem_of_fmap.
  { rewrite Hsub. apply list_elem_of_fmap. eauto. }
  apply hasMatch_true. eauto.
Qed.

End Differ.

Lemma elem_of_concat {A} (x : A) (ls : list (list A)) :
  x ∈ concat ls ↔ ∃ l, x ∈ l ∧ l ∈ ls.
Proof.
  rewrite list_elem_of_In, in_concat. split.
  - intros (l & Hl & Hx). exists l. by rewrite !list_elem_of_In.
  - intros (l & Hx & Hl). exists l. by rewrite <- !list_elem_of_In.
Qed.

(** C8. For every address list A, the empty one and those with repeated
    addresses included, [isDiff A A] is false. *)
Theorem isDiff_reflexive (A : list IP) : isDiff A A = false.
Proof.
  apply isDiff_false. split; [done|].
  intros v Hv. apply hasMatch_true. by exists v.
Qed.

(** [isDiff] by its own parameters: it is true exactly when the two lengths
    differ or some member of its first argument, the list the outer loop
    walks, has no member of its second argument with its canonical string. *)
Lemma isDiff_true_iff (oldHosts newHosts : list IP) :
  isDiff oldHosts newHosts = true
  ↔ length oldHosts ≠ length newHosts
    ∨ ∃ v, v ∈ oldHosts ∧ ∀ k, k ∈ newHosts → IP_String v ≠ IP_String k.
Proof.
  rewrite <- not_false_iff_true, isDiff_false. split.
  - intros Hno.
    destruct (decide (length oldHosts = length newHosts)) as [Hlen|Hlen]; [|by left].
    right.
    destruct (decide (Forall (fun v => hasMatch v newHosts = true) oldHosts))
      as [Hall|Hex].
    + exfalso. apply Hno. split; [done|]. by apply Forall_forall.
    + apply not_Forall_Exists in Hex; [|solve_decision].
      apply Exists_exists in Hex as (v & Hv & Hm).
      exists v. split; [done|]. apply hasMatch_false.
      by apply not_true_iff_false.
  - intros [Hlen|(v & Hv & Hnone)] [Heq Hall]; [done|].
    apply hasMatch_false in Hnone. specialize (Hall v Hv). congruence.
Qed.

(** C1. For all address lists [previous] and [current], the differ as the
    loops call it, with the fetched list [current] first and the snapshot
    [previous] second, returns true if and only if the two lengths differ
    or some member of [current] has no exact match, by canonical string, in
    [previous].  Lists with repeated addresses are included. *)
Theorem Changed_iff_spec (previous current : list IP) :
  Changed previous current = true ↔ Changed_spec previous current.
Proof.
  unfold Changed, Changed_spec. rewrite isDiff_true_iff. split.
  - intros [Hlen|Hex]; [left; congruence | by right].
  - intros [Hlen|Hex]; [left; congruence | by right].
Qed.

Example Changed_with_repeats :
  Changed [Sample.ip1; Sample.ip1] [Sample.ip1; Sample.ip2] = true
  ∧ Changed [Sample.ip1; Sample.ip2] [Sample.ip1; Sample.ip1] = false.
Proof. by vm_compute. Qed.

(** C6, as amended.  On two lists neither of which repeats a canonical
    string, [isDiff] gives the same answer in both argument orders. *)
Theorem isDiff_symmetric_NoDup (A B : list IP) :
  NoDup (IP_String <$> A) → NoDup (IP_String <$> B) →
  isDiff A B = isDiff B A.
Proof.
  intros HA HB.
  destruct (isDiff A B) eqn:HAB, (isDiff B A) eqn:HBA; try done.
  - apply isDiff_false in HBA as [Hlen Hall].
    apply not_false_iff_true in HAB. exfalso. apply HAB.
    apply isDiff_false. split; [done|].
    by apply (matched_turns_around B A).
  - apply isDiff_false in HAB as [Hlen Hall].
    apply not_false_iff_true in HBA. exfalso. apply HBA.
    apply isDiff_false. split; [done|].
    by apply (matched_turns_around A B).
Qed.

Lemma isDiff_symmetric_NoDup_witness :
  NoDup (IP_String <$> [Sample.ip1; Sample.ip2])
  ∧ NoDup (IP_String <$> [Sample.ip2; Sample.ip1])
  ∧ isDiff [Sample.ip1; Sample.ip2] [Sample.ip2; Sample.ip1]
    = isDiff [Sample.ip2; Sample.ip1] [Sample.ip1; Sample.ip2].
Proof.
  assert (NoDup (IP_String <$> [Sample.ip1; Sample.ip2])) as H1.
  { apply (bool_decide_unpack _). vm_compute. exact I. }
  assert (NoDup (IP_String <$> [Sample.ip2; Sample.ip1])) as H2.
  { apply (bool_decide_unpack _). vm_compute. exact I. }
  split; [exact H1|]. split; [exact H2|].
  exact (isDiff_symmetric_NoDup _ _ H1 H2).
Defined.

(** C6 as stated fails on lists with a repeated address. *)
Lemma isDiff_not_symmetric :
  isDiff [Sample.ip1; Sample.ip1] [Sample.ip1; Sample.ip2]
  ≠ isDiff [Sample.ip1; Sample.ip2] [Sample.ip1; Sample.ip1].
Proof. by vm_compute. Qed.

(** ** The firewall renderer *)

Section Scanning.

Import KubeUFW.


Lemma scanLine_before sc text :
  text ≠ startMarker → text ≠ endMarker →
  scanLine {| startConfig := sc; endConfig := []; blnStart := false; blnEnd := false |} text
  = {| startConfig := sc ++ [text]; endConfig := []; blnStart := false; blnEnd := false |}.
Proof.
  intros Hs He. unfold scanLine. simpl.
  apply String.eqb_neq in Hs, He.
  unfold startMarker, endMarker in Hs, He. by rewrite Hs, He.
Qed.

Lemma scanLine_start sc :
  scanLine {| startConfig := sc; endConfig := []; blnStart := false; blnEnd := false |}
    startMarker
  = {| startConfig := sc ++ [startMarker]; endConfig := [];
       blnStart := true; blnEnd := false |}.
Proof. reflexivity. Qed.

Lemma scanLine_between sc text :
  text ≠ endMarker →
  scanLine {| startConfig := sc; endConfig := []; blnStart := true; blnEnd := false |} text
  = {| startConfig := sc; endConfig := []; blnStart := true; blnEnd := false |}.
Proof.
  intros He. unfold scanLine. simpl.
  apply String.eqb_neq in He. unfold endMarker in He. rewrite He.
  by destruct (String.eqb text "### RULES ###").
Qed.

Lemma scanLine_end sc :
  scanLine {| startConfig := sc; endConfig := []; blnStart := true; blnEnd := false |}
    endMarker
  = {| startConfig := sc; endConfig := [endMarker]; blnStart := true; blnEnd := true |}.
Proof. reflexivity. Qed.

Lemma scanLine_after sc ec text :
  scanLine {| startConfig := sc; endConfig := ec; blnStart := true; blnEnd := true |} text
  = {| startConfig := sc; endConfig := ec ++ [text]; blnStart := true; blnEnd := true |}.
Proof.
  unfold scanLine. simpl.
  by destruct (String.eqb text "### RULES ###"), (String.eqb text "### END RULES ###").
Qed.

Lemma scan_before pre : ∀ sc,
  startMarker ∉ pre → endMarker ∉ pre →
  fold_left scanLine pre
    {| startConfig := sc; endConfig := []; blnStart := false; blnEnd := false |}
  = {| startConfig := sc ++ pre; endConfig := []; blnStart := false; blnEnd := false |}.
Proof.
  induction pre as [|text pre IH]; intros sc Hs He; simpl.
  - by rewrite app_nil_r.
  - apply not_elem_of_cons in Hs as [Hs1 Hs2], He as [He1 He2].
    rewrite scanLine_before by done.
    rewrite IH by done. by rewrite <- app_assoc.
Qed.

Lemma scan_between mid : ∀ sc,
  endMarker ∉ mid →
  fold_left scanLine mid
    {| startConfig := sc; endConfig := []; blnStart := true; blnEnd := false |}
  = {| startConfig := sc; endConfig := []; blnStart := true; blnEnd := false |}.
Proof.
  induction mid as [|text mid IH]; intros sc He; simpl; [done|].
  apply not_elem_of_cons in He as [He1 He2].
  rewrite scanLine_between by done. by apply IH.
Qed.

Lemma scan_after post : ∀ sc ec,
  fold_left scanLine post
    {| startConfig := sc; endConfig := ec; blnStart := true; blnEnd := true |}
  = {| startConfig := sc; endConfig := ec ++ post; blnStart := true; blnEnd := true |}.
Proof.
  induction post as [|text post IH]; intros sc ec; simpl.
  - by rewrite app_nil_r.
  - rewrite scanLine_after, IH. by rewrite <- app_assoc.
Qed.

(** What the scanning loop leaves in its two accumulators on a file with
    the start marker first met after [pre] and the end marker first met
    after [mid]. *)
Lemma scan_frame pre mid post :
  startMarker ∉ pre → endMarker ∉ pre → endMarker ∉ mid →
  fold_left scanLine (pre ++ startMarker :: mid ++ endMarker :: post)
    {| startConfig := []; endConfig := []; blnStart := false; blnEnd := false |}
  = {| startConfig := pre ++ [startMarker]; endConfig := endMarker :: post;
       blnStart := true; blnEnd := true |}.
Proof.
  intros Hs He Hm.
  rewrite fold_left_app, scan_before by done. simpl.
  rewrite scanLine_start, fold_left_app, scan_between by done. simpl.
  by rewrite scanLine_end, scan_after.
Qed.

Lemma appendRule_rulePair newConfig n :
  appendRule newConfig n = newConfig ++ rulePair n.
Proof. unfold appendRule, rulePair. by rewrite <- !app_assoc. Qed.

Lemma fold_appendRule ipList : ∀ newConfig,
  fold_left appendRule ipList newConfig = newConfig ++ concat (rulePair <$> ipList).
Proof.
  induction ipList as [|n ipList IH]; intros newConfig; simpl.
  - by rewrite app_nil_r.
  - rewrite IH, appendRule_rulePair. by rewrite <- app_assoc.
Qed.

(** The renderer on a readable file, in closed form. *)
Lemma buildUFW_readable fs ipList rules dat :
  os.Open fs rules = Some dat →
  buildUFW fs ipList rules
  = let st := fold_left scanLine (bufio.Scan dat)
                {| startConfig := []; endConfig := [];
                   blnStart := false; blnEnd := false |} in
    startConfig st ++ generatedRegion ipList ++ endConfig st.
Proof.
  intros Hopen. unfold buildUFW. rewrite Hopen. simpl.
  rewrite fold_appendRule. unfold generatedRegion. by rewrite <- !app_assoc.
Qed.

End Scanning.

(** The frame in terms of the lines the scanner delivers: where they hold
    each marker once, the start marker first, the rendering is the lines up
    to and including the start marker, then the generated region, then the
    lines from the end marker on. *)
Lemma buildUFW_frame_of_scanned_lines
    (fs : gmap string File) (rules dat : string) (ipList : list IP)
    (pre mid post : list string) :
  os.Open fs rules = Some dat →
  bufio.Scan dat = pre ++ startMarker :: mid ++ endMarker :: post →
  (startMarker ∉ pre ++ mid ++ post) →
  (endMarker ∉ pre ++ mid ++ post) →
  KubeUFW.buildUFW fs ipList rules
  = (pre ++ [startMarker]) ++ generatedRegion ipList ++ (endMarker :: post).
Proof.
  intros Hopen Hlines Hs He.
  rewrite (buildUFW_readable _ _ _ _ Hopen), Hlines. cbv zeta.
  rewrite scan_frame; [done|..].
  - intros Hin. apply Hs. apply elem_of_app. by left.
  - intros Hin. apply He. apply elem_of_app. by left.
  - intros Hin. apply He. rewrite !elem_of_app. right. by left.
Qed.

(** C7, as amended.  When the rules file cannot be opened for reading, the
    renderer returns the empty list of lines: no static rule, no rule for
    any address. *)
Theorem buildUFW_unreadable
    (fs : gmap string File) (rules : string) (ipList : list IP) :
  os.Open fs rules = None → KubeUFW.buildUFW fs ipList rules = [].
Proof. intros Hopen. unfold KubeUFW.buildUFW. by rewrite Hopen. Qed.

Lemma buildUFW_unreadable_witness :
  os.Open (∅ : gmap string File) Sample.rules = None
  ∧ KubeUFW.buildUFW ∅ [Sample.ip1] Sample.rules = [].
Proof.
  split; [reflexivity|].
  apply (buildUFW_unreadable ∅ Sample.rules [Sample.ip1]). reflexivity.
Defined.

(** C7 as stated fails: with no rules file to read the output is not the
    static rules followed by the rule pair of the address. *)
Lemma no_rules_file_no_static_rules :
  os.Open (∅ : gmap string File) Sample.rules = None
  ∧ KubeUFW.buildUFW ∅ [Sample.ip1] Sample.rules ≠ [] ++ generatedRegion [Sample.ip1] ++ [].
Proof. split; [reflexivity | by vm_compute]. Qed.

(** ** The load-balancer renderer *)

Section Upstreams.

Import KubeNginx.

Lemma appendServer_line k totalConfig i :
  appendServer k totalConfig i = totalConfig ++ [serverLine (port k) i].
Proof. reflexivity. Qed.

Lemma fold_appendServer k ipList : ∀ totalConfig,
  fold_left (appendServer k) ipList totalConfig
  = totalConfig ++ (serverLine (port k) <$> ipList).
Proof.
  induction ipList as [|i ipList IH]; intros totalConfig; simpl.
  - by rewrite app_nil_r.
  - rewrite IH, appendServer_line. by rewrite <- app_assoc.
Qed.

Lemma appendUpstream_block ipList totalConfig k :
  appendUpstream ipList totalConfig k
  = totalConfig ++ upstreamBlock (upstream_name k) (port k) ipList.
Proof.
  unfold appendUpstream, upstreamBlock.
  rewrite fold_appendServer. by rewrite <- !app_assoc.
Qed.

Lemma fold_appendUpstream ipList groups : ∀ totalConfig,
  fold_left (appendUpstream ipList) groups totalConfig
  = totalConfig
    ++ concat ((fun k => upstreamBlock (upstream_name k) (port k) ipList) <$> groups).
Proof.
  induction groups as [|k groups IH]; intros totalConfig; simpl.
  - by rewrite app_nil_r.
  - rewrite IH, appendUpstream_block. by rewrite <- app_assoc.
Qed.

(** The two nested loops over any list of groups. *)
Lemma renderUpstreams_blocks groups ipList :
  renderUpstreams groups ipList
  = concat ((fun k => upstreamBlock (upstream_name k) (port k) ipList) <$> groups).
Proof. unfold renderUpstreams. by rewrite fold_appendUpstream. Qed.

Lemma serverLine_rendered ipList k i :
  k ∈ upstreams → i ∈ ipList → serverLine (port k) i ∈ buildNginx ipList.
Proof.
  intros Hk Hi. unfold buildNginx. rewrite renderUpstreams_blocks.
  apply elem_of_concat.
  exists (upstreamBlock (upstream_name k) (port k) ipList). split.
  - unfold upstreamBlock. rewrite !elem_of_app. right. left.
    apply list_elem_of_fmap. eauto.
  - apply list_elem_of_fmap. eauto.
Qed.

End Upstreams.

(** C9. For every address list the rendered file is, for the five configured
    groups in their order, the line [upstream <name> {], then one line
    [server <address>:<port> weight=100;] per address in the order of the
    list and at the port of the group, then the line [}]. *)
Theorem buildNginx_blocks (ipList : list IP) :
  KubeNginx.buildNginx ipList
  = upstreamBlock "diy" 32016 ipList
    ++ upstreamBlock "dockerui" 32018 ipList
    ++ upstreamBlock "tryingadventure" 32020 ipList
    ++ upstreamBlock "devops" 32021 ipList
    ++ upstreamBlock "monitor" 32699 ipList.
Proof.
  unfold KubeNginx.buildNginx. rewrite renderUpstreams_blocks.
  simpl. by rewrite app_nil_r.
Qed.

Example buildNginx_api :
  KubeNginx.renderUpstreams [{| KubeNginx.upstream_name := "api"; KubeNginx.port := 9090 |}]
    [Sample.ip1; Sample.ip2]
  = [ "upstream api {";
      "server 10.0.0.1:9090 weight=100;";
      "server 10.0.0.2:9090 weight=100;";
      "}" ].
Proof. reflexivity. Qed.

(** ** AddressSource *)

Section Collecting.

Variable ParseIP : string → IP.

Lemma fold_collect Items : ∀ results,
  fold_left (collect ParseIP) Items results = results ++ collected ParseIP Items.
Proof.
  unfold collected.
  induction Items as [|val Items IH]; intros results; simpl.
  - by rewrite app_nil_r.
  - rewrite IH, (IH (collect ParseIP [] val)). unfold collect.
    destruct (Annotations val !! "projectcalico.org/IPv4Address"); simpl.
    + by rewrite <- app_assoc.
    + done.
Qed.

Lemma collected_app Items1 Items2 :
  collected ParseIP (Items1 ++ Items2)
  = collected ParseIP Items1 ++ collected ParseIP Items2.
Proof. unfold collected at 1. rewrite fold_left_app. apply fold_collect. Qed.

Lemma collected_with val strIP Items :
  Annotations val !! "projectcalico.org/IPv4Address" = Some strIP →
  collected ParseIP (val :: Items)
  = ParseIP (firstField strIP) :: collected ParseIP Items.
Proof.
  intros Hann. unfold collected at 1. simpl. rewrite fold_collect.
  unfold collect. by rewrite Hann.
Qed.

Lemma collected_without val Items :
  Annotations val !! "projectcalico.org/IPv4Address" = None →
  collected ParseIP (val :: Items) = collected ParseIP Items.
Proof.
  intros Hann. unfold collected at 1. simpl. rewrite fold_collect.
  unfold collect. by rewrite Hann.
Qed.

Lemma getKubeNodes_nginx_listed Items w :
  (KubeNginx.getKubeNodes ParseIP (Listed Items) w).1 = (collected ParseIP Items, None).
Proof. reflexivity. Qed.

Lemma getKubeNodes_ufw_listed Items w :
  (KubeUFW.getKubeNodes ParseIP (Listed Items) w).1
  = Returned (collected ParseIP Items, None).
Proof. reflexivity. Qed.

End Collecting.

(** C10. A node that carries the address annotation with a value
    [net.ParseIP] rejects is not skipped.  In both programs the nil address
    takes the node's place in the list [getKubeNodes] returns, and both
    renderers then print it as [<nil>]: in a server line of every upstream
    group, and in the two rule lines of the firewall file. *)
Theorem getKubeNodes_keeps_unparsed
    (ParseIP : string → IP) (before after : list Node) (val : Node) (strIP : string)
    (w : World) (fs : gmap string File) (rules dat : string) :
  Annotations val !! "projectcalico.org/IPv4Address" = Some strIP →
  ParseIP (firstField strIP) = [] →
  os.Open fs rules = Some dat →
  let Items := before ++ val :: after in
  let results := collected ParseIP before ++ [] :: collected ParseIP after in
  (KubeNginx.getKubeNodes ParseIP (Listed Items) w).1 = (results, None)
  ∧ (KubeUFW.getKubeNodes ParseIP (Listed Items) w).1 = Returned (results, None)
  ∧ (∀ k, k ∈ KubeNginx.upstreams →
       ("server <nil>:" ++ (pretty (KubeNginx.port k) ++ " weight=100;"))%string
       ∈ KubeNginx.buildNginx results)
  ∧ "### tuple ### allow tcp 27017 0.0.0.0/0 any <nil> in"
      ∈ KubeUFW.buildUFW fs results rules
  ∧ "-A ufw-user-input -p tcp --dport 27017 -s <nil> -j ACCEPT"
      ∈ KubeUFW.buildUFW fs results rules.
Proof.
  intros Hann Hnil Hopen Items results.
  assert (collected ParseIP Items = results) as Hres.
  { unfold Items, results.
    by rewrite collected_app, (collected_with _ _ _ _ Hann), Hnil. }
  assert (([] : IP) ∈ results) as Hin.
  { unfold results. apply elem_of_app. right. by left. }
  split; [by rewrite getKubeNodes_nginx_listed, Hres|].
  split; [by rewrite getKubeNodes_ufw_listed, Hres|].
  split.
  { intros k Hk. exact (serverLine_rendered results k [] Hk Hin). }
  rewrite (buildUFW_readable _ _ _ _ Hopen). cbv zeta.
  assert (∀ l, l ∈ rulePair [] → l ∈ generatedRegion results) as Hgen.
  { intros l Hl. unfold generatedRegion. apply elem_of_app. right.
    apply elem_of_concat. exists (rulePair []). split; [done|].
    apply list_elem_of_fmap. eauto. }
  split.
  - apply elem_of_app. right. apply elem_of_app. left. apply Hgen. by left.
  - apply elem_of_app. right. apply elem_of_app. left. apply Hgen.
    right. by left.
Qed.

Lemma getKubeNodes_keeps_unparsed_witness :
  let fs : gmap string File := {[ Sample.rules := Sample.file Sample.user_rules ]} in
  let Items := [Sample.node "10.0.0.1/24"] ++ Sample.odd :: [Sample.node "10.0.0.2/24"] in
  Annotations Sample.odd !! "projectcalico.org/IPv4Address" = Some "not-an-address"
  ∧ Sample.ParseIP (firstField "not-an-address") = []
  ∧ os.Open fs Sample.rules = Some Sample.user_rules
  ∧ (KubeNginx.getKubeNodes Sample.ParseIP (Listed Items) (Sample.world fs)).1
    = ([Sample.ParseIP "10.0.0.1"; []; Sample.ParseIP "10.0.0.2"], None).
Proof.
  intros fs Items.
  assert (Annotations Sample.odd !! "projectcalico.org/IPv4Address"
          = Some "not-an-address") as Hann by reflexivity.
  assert (Sample.ParseIP (firstField "not-an-address") = []) as Hnil by reflexivity.
  assert (os.Open fs Sample.rules = Some Sample.user_rules) as Hopen by reflexivity.
  split; [exact Hann|]. split; [exact Hnil|]. split; [exact Hopen|].
  exact (proj1 (getKubeNodes_keeps_unparsed Sample.ParseIP
                  [Sample.node "10.0.0.1/24"] [Sample.node "10.0.0.2/24"]
                  Sample.odd "not-an-address" (Sample.world fs) fs
                  Sample.rules Sample.user_rules Hann Hnil Hopen)).
Defined.

(** ** The artifact writers *)

Section Writers.

Lemma string_app_assoc (s1 s2 s3 : string) :
  ((s1 ++ s2) ++ s3 = s1 ++ (s2 ++ s3))%string.
Proof.
  induction s1 as [|a s1 IH]; [reflexivity|].
  exact (f_equal (String a) IH).
Qed.

Lemma string_app_nil_r (s : string) : (s ++ "")%string = s.
Proof.
  induction s as [|a s IH]; [reflexivity|].
  exact (f_equal (String a) IH).
Qed.

Lemma skip_all (s : string) : os.skip (String.length s) s = "".
Proof. induction s as [|a s IH]; [reflexivity | exact IH]. Qed.

Lemma skip_from_empty (n : nat) : os.skip n "" = "".
Proof. by destruct n. Qed.

Lemma skip_short (n : nat) (s : string) :
  (n < String.length s)%nat → os.skip n s ≠ "".
Proof.
  revert s. induction n as [|n IH]; intros [|a s] Hlt; simpl in *; try lia; try done.
  apply IH. lia.
Qed.

Lemma skip_app (p rest : string) : os.skip (String.length p) (p ++ rest) = rest.
Proof. induction p as [|a p IH]; [reflexivity | exact IH]. Qed.

Lemma fold_newlines (lines : list string) : ∀ out : string,
  fold_left (fun out data => (out ++ (data ++ String "010" ""))%string) lines out
  = (out ++ serialized lines)%string.
Proof.
  induction lines as [|l lines IH]; intros out; simpl.
  - by rewrite string_app_nil_r.
  - rewrite IH. by rewrite !string_app_assoc.
Qed.

Lemma buffered_serialized ufwConfig : KubeUFW.buffered ufwConfig = serialized ufwConfig.
Proof. unfold KubeUFW.buffered. by rewrite fold_newlines. Qed.

Lemma printed_serialized ngixConfig : KubeNginx.printed ngixConfig = serialized ngixConfig.
Proof. unfold KubeNginx.printed. by rewrite fold_newlines. Qed.

(** [writeNginx] on a file it can create or truncate: the file holds the
    lines and nothing else. *)
Lemma writeNginx_content ngixConfig config w f :
  os.Create (fs w) config = Some f →
  data <$> (fs (KubeNginx.writeNginx ngixConfig config w).2 !! config)
  = Some (serialized ngixConfig).
Proof.
  intros Hc. unfold KubeNginx.writeNginx, mbind, Run_bind, files. rewrite Hc.
  simpl. rewrite lookup_insert_eq. simpl. f_equal.
  assert (data f = "") as ->.
  { unfold os.Create in Hc. destruct (fs w !! config) as [g|].
    - destruct (present g && readable g && writable g); by simplify_eq.
    - by simplify_eq. }
  unfold os.WriteAt0. by rewrite skip_from_empty, string_app_nil_r, printed_serialized.
Qed.

(** [writeUFW] on a file it can open: the lines are laid over the first
    bytes of the file, whatever follows stays. *)
Lemma writeUFW_content ufwConfig rules w f :
  os.OpenFile_CREATE_WRONLY (fs w) rules = Some f →
  data <$> (fs (KubeUFW.writeUFW ufwConfig rules w).2 !! rules)
  = Some (os.WriteAt0 (data f) (serialized ufwConfig)).
Proof.
  intros Ho. unfold KubeUFW.writeUFW, mbind, Run_bind, files. rewrite Ho.
  simpl. rewrite lookup_insert_eq. simpl. by rewrite buffered_serialized.
Qed.

(** The file ends up as the lines alone when it held no more bytes than
    the lines take. *)
Lemma WriteAt0_no_stale (old p : string) :
  (String.length old ≤ String.length p)%nat → os.WriteAt0 old p = p.
Proof.
  intros Hle. unfold os.WriteAt0.
  assert (os.skip (String.length p) old = "") as ->; [|apply string_app_nil_r].
  revert old Hle. induction p as [|a p IH]; intros [|b old] Hle; simpl in *;
    try done; try lia.
  apply IH. lia.
Qed.

Lemma WriteAt0_stale (p tail : string) :
  os.WriteAt0 (p ++ tail) p = (p ++ tail)%string.
Proof. unfold os.WriteAt0. by rewrite skip_app. Qed.

End Writers.

(** C5 fails for [writeUFW].  On a file that holds more bytes than the new
    lines take, the file it leaves is the lines followed by a non-empty rest
    of the old bytes. *)
Theorem writeUFW_keeps_stale_bytes
    (ufwConfig : list string) (rules : string) (w : World) (f : File) :
  os.OpenFile_CREATE_WRONLY (fs w) rules = Some f →
  (String.length (serialized ufwConfig) < String.length (data f))%nat →
  ∃ stale : string,
    stale ≠ ""
    ∧ data <$> (fs (KubeUFW.writeUFW ufwConfig rules w).2 !! rules)
      = Some (serialized ufwConfig ++ stale)%string.
Proof.
  intros Ho Hlt. exists (os.skip (String.length (serialized ufwConfig)) (data f)).
  split.
  - by apply skip_short.
  - by rewrite (writeUFW_content _ _ _ _ Ho).
Qed.

Lemma writeUFW_keeps_stale_bytes_witness :
  let old := ("old-1" ++ Sample.nl ++ "old-2" ++ Sample.nl)%string in
  let w := Sample.world {[ Sample.rules := Sample.file old ]} in
  os.OpenFile_CREATE_WRONLY (fs w) Sample.rules = Some (Sample.file old)
  ∧ (String.length (serialized ["new"]) < String.length old)%nat
  ∧ ∃ stale : string,
      stale ≠ ""
      ∧ data <$> (fs (KubeUFW.writeUFW ["new"] Sample.rules w).2 !! Sample.rules)
        = Some (serialized ["new"] ++ stale)%string.
Proof.
  intros old w.
  assert (os.OpenFile_CREATE_WRONLY (fs w) Sample.rules = Some (Sample.file old))
    as Ho by reflexivity.
  assert (String.length (serialized ["new"]) < String.length (data (Sample.file old)))%nat
    as Hlt by (vm_compute; lia).
  split; [exact Ho|]. split; [exact Hlt|].
  exact (writeUFW_keeps_stale_bytes ["new"] Sample.rules w (Sample.file old) Ho Hlt).
Defined.

(** The two writers on the same file and lines. *)
Example writers_on_a_longer_file :
  let old := ("old-1" ++ Sample.nl ++ "old-2" ++ Sample.nl)%string in
  let w := Sample.world {[ Sample.rules := Sample.file old ]} in
  data <$> (fs (KubeUFW.writeUFW ["new"] Sample.rules w).2 !! Sample.rules)
  = Some ("new" ++ Sample.nl ++ "1" ++ Sample.nl ++ "old-2" ++ Sample.nl)%string
  ∧ data <$> (fs (KubeNginx.writeNginx ["new"] Sample.rules w).2 !! Sample.rules)
    = Some ("new" ++ Sample.nl)%string.
Proof. by vm_compute. Qed.

(** ** The reconciliation loops *)

Section Cycles.

Variable ParseIP : string → IP.

Lemma events_extend {A} (m : Run A) (w : World) (evs : list Event) :
  trace (m w).2 = trace w ++ evs → events m w = evs.
Proof. intros Htr. unfold events. rewrite Htr. apply drop_app_length. Qed.

(** A turn of the load-balancer loop on a failed query. *)
Lemma nginx_cycle_failed nginxconfig systemctl reply oldHosts w :
  failed reply →
  KubeNginx.cycle ParseIP nginxconfig systemctl reply oldHosts w
  = (oldHosts, {| fs := fs w; trace := trace w ++ [EvQuery] |}).
Proof. by destruct reply. Qed.

(** A turn of the load-balancer loop that finds a change. *)
Lemma nginx_cycle_changed nginxconfig systemctl Items oldHosts w :
  isDiff (collected ParseIP Items) oldHosts = true →
  events (KubeNginx.cycle ParseIP nginxconfig systemctl (Listed Items) oldHosts) w
  = [EvQuery; EvRender; EvWrite nginxconfig (opened (os.Create (fs w) nginxconfig));
     EvSleep 5;
     EvExec systemctl ["reload"; "nginx"]; EvSleep 5].
Proof.
  intros Hdiff. apply events_extend.
  unfold KubeNginx.cycle, KubeNginx.getKubeNodes, KubeNginx.writeNginx,
    KubeNginx.NginxReload, mbind, Run_bind, mret, Run_ret, emit, files, store.
  simpl. fold (collected ParseIP Items). rewrite Hdiff. simpl.
  destruct (os.Create (fs w) nginxconfig); simpl;
    by rewrite <- !app_assoc.
Qed.

(** A turn of the load-balancer loop that finds no change. *)
Lemma nginx_cycle_unchanged nginxconfig systemctl Items oldHosts w :
  isDiff (collected ParseIP Items) oldHosts = false →
  KubeNginx.cycle ParseIP nginxconfig systemctl (Listed Items) oldHosts w
  = (collected ParseIP Items,
     {| fs := fs w; trace := trace w ++ [EvQuery; EvSleep 5] |}).
Proof.
  intros Hdiff.
  unfold KubeNginx.cycle, KubeNginx.getKubeNodes,
    mbind, Run_bind, mret, Run_ret, emit.
  simpl. fold (collected ParseIP Items). rewrite Hdiff. simpl.
  by rewrite <- !app_assoc.
Qed.

(** A turn of the firewall loop that finds a change. *)
Lemma ufw_cycle_changed rules ufwcmd Items oldHosts w :
  isDiff (collected ParseIP Items) oldHosts = true →
  events (KubeUFW.cycle ParseIP rules ufwcmd (Listed Items) oldHosts) w
  = [EvQuery; EvRender;
     EvWrite rules (opened (os.OpenFile_CREATE_WRONLY (fs w) rules));
     EvExec ufwcmd ["reload"]; EvSleep 5; EvSleep 5].
Proof.
  intros Hdiff. apply events_extend.
  unfold KubeUFW.cycle, KubeUFW.getKubeNodes, KubeUFW.writeUFW,
    KubeUFW.UFWReload, mbind, Run_bind, mret, Run_ret, emit, files, store.
  simpl. fold (collected ParseIP Items). rewrite Hdiff. simpl.
  destruct (os.OpenFile_CREATE_WRONLY (fs w) rules); simpl;
    by rewrite <- !app_assoc.
Qed.

(** A turn of the firewall loop on a failed query. *)
Lemma ufw_cycle_failed rules ufwcmd reply oldHosts w :
  failed reply →
  ∃ msg, KubeUFW.cycle ParseIP rules ufwcmd reply oldHosts w
         = (Panicked msg, {| fs := fs w; trace := trace w ++ [EvQuery] |}).
Proof. destruct reply as [err|err|err|Items]; [by exists err..|done]. Qed.

End Cycles.

(** C3, as amended.  In a cycle that detects a change, the writer runs and
    the reload command is then started once, whether or not the writer got
    the file open: in the load-balancer loop after a five-second sleep, in
    the firewall loop at once. *)
Theorem reload_follows_write_attempt
    (ParseIP : string → IP) (path cmd : string) (Items : list Node)
    (oldHosts : list IP) (w : World) :
  isDiff (collected ParseIP Items) oldHosts = true →
  events (KubeNginx.cycle ParseIP path cmd (Listed Items) oldHosts) w
  = [EvQuery; EvRender;
     EvWrite path (opened (os.Create (fs w) path));
     EvSleep 5; EvExec cmd ["reload"; "nginx"]; EvSleep 5]
  ∧ events (KubeUFW.cycle ParseIP path cmd (Listed Items) oldHosts) w
    = [EvQuery; EvRender;
       EvWrite path (opened (os.OpenFile_CREATE_WRONLY (fs w) path));
       EvExec cmd ["reload"]; EvSleep 5; EvSleep 5].
Proof.
  intros Hdiff. split.
  - by apply nginx_cycle_changed.
  - by apply ufw_cycle_changed.
Qed.

Lemma reload_follows_write_attempt_witness :
  let Items := [Sample.node "10.0.0.5/24"] in
  let w := Sample.world {[ Sample.nginxconfig := Sample.locked "" ]} in
  isDiff (collected Sample.ParseIP Items) [] = true
  ∧ events (KubeNginx.cycle Sample.ParseIP Sample.nginxconfig Sample.systemctl
              (Listed Items) []) w
    = [EvQuery; EvRender; EvWrite Sample.nginxconfig false;
       EvSleep 5; EvExec Sample.systemctl ["reload"; "nginx"]; EvSleep 5].
Proof.
  intros Items w.
  assert (isDiff (collected Sample.ParseIP Items) [] = true) as Hdiff by reflexivity.
  split; [exact Hdiff|].
  exact (proj1 (reload_follows_write_attempt Sample.ParseIP Sample.nginxconfig
                  Sample.systemctl Items [] w Hdiff)).
Defined.

(** C3 as stated fails: with an upstream file the process may not write,
    the cycle of either program still starts the reload command, and no
    write of that cycle succeeded. *)
Lemma reload_despite_failed_write :
  let Items := [Sample.node "10.0.0.5/24"] in
  ¬ reload_follows_success
      (events (KubeNginx.cycle Sample.ParseIP Sample.nginxconfig Sample.systemctl
                 (Listed Items) [])
         (Sample.world {[ Sample.nginxconfig := Sample.locked "" ]}))
  ∧ ¬ reload_follows_success
        (events (KubeUFW.cycle Sample.ParseIP Sample.rules Sample.ufwcmd
                   (Listed Items) [])
           (Sample.world {[ Sample.rules := Sample.locked Sample.user_rules ]})).
Proof.
  intros Items. split.
  - intros Hclaim.
    destruct (Hclaim Sample.systemctl ["reload"; "nginx"]) as [path Hin].
    + vm_compute. apply list_elem_of_In. simpl. tauto.
    + vm_compute in Hin. apply list_elem_of_In in Hin. simpl in Hin.
      repeat (destruct Hin as [Hin|Hin]; [discriminate|]). exact Hin.
  - intros Hclaim.
    destruct (Hclaim Sample.ufwcmd ["reload"]) as [path Hin].
    + vm_compute. apply list_elem_of_In. simpl. tauto.
    + vm_compute in Hin. apply list_elem_of_In in Hin. simpl in Hin.
      repeat (destruct Hin as [Hin|Hin]; [discriminate|]). exact Hin.
Qed.

(** C4, as amended.  In the load-balancer program a failed query comes back
    from [getKubeNodes] as an error, and the turn of the loop that meets it
    keeps [oldHosts] and the files as they were, renders, writes and reloads
    nothing, and hands over to the next turn of the loop.  In the firewall
    program the same failure makes [getKubeNodes] panic. *)
Theorem nginx_fetch_failure_skips_cycle
    (ParseIP : string → IP) (nginxconfig systemctl : string) (reply : KubeReply)
    (later : list KubeReply) (oldHosts : list IP) (w : World) :
  failed reply →
  let turn := KubeNginx.cycle ParseIP nginxconfig systemctl reply oldHosts in
  (∃ err, (KubeNginx.getKubeNodes ParseIP reply w).1 = ([], Some err))
  ∧ (turn w).1 = oldHosts
  ∧ fs (turn w).2 = fs w
  ∧ Forall (fun e => acts e = false) (events turn w)
  ∧ KubeNginx.loop ParseIP nginxconfig systemctl (reply :: later) oldHosts w
    = KubeNginx.loop ParseIP nginxconfig systemctl later oldHosts (turn w).2
  ∧ (∃ msg, (KubeUFW.getKubeNodes ParseIP reply w).1 = Panicked msg).
Proof.
  intros Hfail turn.
  pose proof (nginx_cycle_failed ParseIP nginxconfig systemctl reply oldHosts w Hfail)
    as Hturn.
  fold turn in Hturn.
  split; [destruct reply as [err|err|err|Items]; [by exists err..|done]|].
  split; [by rewrite Hturn|].
  split; [by rewrite Hturn|].
  split.
  { rewrite (events_extend turn w [EvQuery]) by (by rewrite Hturn).
    by repeat constructor. }
  split.
  - simpl. unfold mbind, Run_bind. fold turn. by rewrite Hturn.
  - destruct reply as [err|err|err|Items]; [by exists err..|done].
Qed.

Lemma nginx_fetch_failure_skips_cycle_witness :
  let w := Sample.world {[ Sample.nginxconfig := Sample.file "" ]} in
  failed (ListFails "connection refused")
  ∧ (KubeNginx.cycle Sample.ParseIP Sample.nginxconfig Sample.systemctl
       (ListFails "connection refused") [Sample.ip1] w).1 = [Sample.ip1].
Proof.
  intros w.
  assert (failed (ListFails "connection refused")) as Hfail by exact I.
  split; [exact Hfail|].
  exact (proj1 (proj2 (nginx_fetch_failure_skips_cycle Sample.ParseIP
                         Sample.nginxconfig Sample.systemctl
                         (ListFails "connection refused") [] [Sample.ip1] w Hfail))).
Defined.

(** C4 as stated fails in the firewall program: there a failed query makes
    [getKubeNodes] panic, and the loop ends with it although the cluster
    would have answered the next query. *)
Lemma ufw_fetch_failure_panics :
  let w := Sample.world {[ Sample.rules := Sample.file Sample.user_rules ]} in
  (KubeUFW.getKubeNodes Sample.ParseIP (ListFails "connection refused") w).1
  = Panicked "connection refused"
  ∧ (KubeUFW.loop Sample.ParseIP Sample.rules Sample.ufwcmd
       [ListFails "connection refused"; Listed [Sample.node "10.0.0.5/24"]]
       [Sample.ip1] w).1
    = Panicked "connection refused".
Proof. by vm_compute. Qed.

(** ** The programs run on sample inventories *)

(** Three answers of the cluster: one node, the same node, a second node.
    The first and the third turn render, write and reload; the second only
    sleeps. *)
Example nginx_three_turns :
  trace (KubeNginx.loop Sample.ParseIP Sample.nginxconfig Sample.systemctl
           [ Listed [Sample.node "10.0.0.5/24"];
             Listed [Sample.node "10.0.0.5/24"];
             Listed [Sample.node "10.0.0.5/24"; Sample.node "10.0.0.6/24"] ]
           [] (Sample.world ∅)).2
  = [ EvQuery; EvRender; EvWrite Sample.nginxconfig true; EvSleep 5;
      EvExec Sample.systemctl ["reload"; "nginx"]; EvSleep 5;
      EvQuery; EvSleep 5;
      EvQuery; EvRender; EvWrite Sample.nginxconfig true; EvSleep 5;
      EvExec Sample.systemctl ["reload"; "nginx"]; EvSleep 5 ].
Proof. by vm_compute. Qed.

(** A failed query between two answers: the failing turn ends after the
    query, without a sleep, and the next turn queries again. *)
Example nginx_failed_turn :
  trace (KubeNginx.loop Sample.ParseIP Sample.nginxconfig Sample.systemctl
           [ Listed [Sample.node "10.0.0.5/24"];
             ListFails "connection refused";
             Listed [Sample.node "10.0.0.5/24"] ]
           [] (Sample.world ∅)).2
  = [ EvQuery; EvRender; EvWrite Sample.nginxconfig true; EvSleep 5;
      EvExec Sample.systemctl ["reload"; "nginx"]; EvSleep 5;
      EvQuery;
      EvQuery; EvSleep 5 ].
Proof. by vm_compute. Qed.

(** The firewall loop on a cluster that loses a node: the second rendering
    is shorter than the file it is laid over, and the file keeps the end of
    the first rendering behind the new last line. *)
Example ufw_node_removed :
  bufio.Scan <$>
    (data <$>
       (fs (KubeUFW.loop Sample.ParseIP Sample.rules Sample.ufwcmd
              [ Listed [Sample.node "10.0.0.1/24"; Sample.node "10.0.0.2/24"];
                Listed [Sample.node "10.0.0.1/24"] ]
              [] (Sample.world {[ Sample.rules := Sample.file Sample.user_rules ]})).2
          !! Sample.rules))
  = Some [ "*filter"; ":ufw-user-input - [0:0]"; "### RULES ###"; "";
           "### tuple ### allow any 22 0.0.0.0/0 any 0.0.0.0/0 in";
           "-A ufw-user-input -p tcp --dport 22 -j ACCEPT";
           "-A ufw-user-input -p udp --dport 22 -j ACCEPT"; "";
           "### tuple ### allow tcp 27017 0.0.0.0/0 any 10.0.0.1 in";
           "-A ufw-user-input -p tcp --dport 27017 -s 10.0.0.1 -j ACCEPT"; "";
           "### END RULES ###"; "COMMIT";
           "7017 0.0.0.0/0 any 10.0.0.2 in";
           "-A ufw-user-input -p tcp --dport 27017 -s 10.0.0.2 -j ACCEPT"; "";
           "### END RULES ###"; "COMMIT" ].
Proof. by vm_compute. Qed.

(** ** Further properties of the differ *)

Section DifferMore.

Implicit Types (v k : IP) (A B : list IP).

Lemma strings_matched A B :
  (∀ v, v ∈ A → hasMatch v B = true)
  ↔ ∀ s, s ∈ IP_String <$> A → s ∈ IP_String <$> B.
Proof.
  split.
  - intros Hall s (v & -> & Hv)%list_elem_of_fmap.
    destruct (proj1 (hasMatch_true v B) (Hall v Hv)) as (k & Hk & ->).
    apply list_elem_of_fmap. eauto.
  - intros Hsub v Hv. apply hasMatch_true.
    assert (IP_String v ∈ IP_String <$> B) as (k & Heq & Hk)%list_elem_of_fmap.
    { apply Hsub. apply list_elem_of_fmap. eauto. }
    eauto.
Qed.

(** [isDiff] in terms of the two lists of canonical strings. *)
Lemma isDiff_false_strings A B :
  isDiff A B = false
  ↔ length (IP_String <$> A) = length (IP_String <$> B)
    ∧ ∀ s, s ∈ IP_String <$> A → s ∈ IP_String <$> B.
Proof. rewrite isDiff_false, strings_matched, !length_fmap. done. Qed.

Lemma isDiff_false_of_Permutation A B :
  IP_String <$> A ≡ₚ IP_String <$> B → isDiff A B = false.
Proof.
  intros Hp. apply isDiff_false_strings. split.
  - by apply Permutation_length.
  - intros s Hs. by rewrite <- Hp.
Qed.

Lemma Permutation_of_isDiff_false A B :
  NoDup (IP_String <$> A) → isDiff A B = false →
  IP_String <$> A ≡ₚ IP_String <$> B.
Proof.
  intros Hnd [Hlen Hsub]%isDiff_false_strings.
  apply submseteq_length_Permutation; [|lia].
  by apply NoDup_submseteq.
Qed.

End DifferMore.

(** X1. Two lists whose canonical strings are the same up to order are
    reported as unchanged, whatever the byte form of the addresses (4-byte
    or 16-byte) and whether or not addresses repeat. *)
Theorem isDiff_same_strings (A B : list IP) :
  IP_String <$> A ≡ₚ IP_String <$> B → isDiff A B = false.
Proof. apply isDiff_false_of_Permutation. Qed.

Lemma isDiff_same_strings_witness :
  let A := [Sample.ip1; v4InV6Prefix ++ Sample.ip2] in
  let B := [Sample.ip2; v4InV6Prefix ++ Sample.ip1] in
  IP_String <$> A ≡ₚ IP_String <$> B ∧ isDiff A B = false.
Proof.
  intros A B.
  assert (IP_String <$> A ≡ₚ IP_String <$> B) as Hp.
  { change (["10.0.0.1"; "10.0.0.2"] ≡ₚ ["10.0.0.2"; "10.0.0.1"]). apply perm_swap. }
  split; [exact Hp|]. exact (isDiff_same_strings A B Hp).
Defined.

(** X2. When the first list repeats no address, "unchanged" means exactly
    that the two lists hold the same canonical strings up to order. *)
Theorem isDiff_false_iff_same_strings (A B : list IP) :
  NoDup (IP_String <$> A) →
  isDiff A B = false ↔ IP_String <$> A ≡ₚ IP_String <$> B.
Proof.
  intros Hnd. split.
  - by apply Permutation_of_isDiff_false.
  - apply isDiff_false_of_Permutation.
Qed.

Lemma isDiff_false_iff_same_strings_witness :
  let A := [Sample.ip1; Sample.ip2] in
  let B := [Sample.ip2; Sample.ip1] in
  NoDup (IP_String <$> A)
  ∧ (isDiff A B = false ↔ IP_String <$> A ≡ₚ IP_String <$> B).
Proof.
  intros A B.
  assert (NoDup (IP_String <$> A)) as Hnd.
  { apply (bool_decide_unpack _). vm_compute. exact I. }
  split; [exact Hnd|]. exact (isDiff_false_iff_same_strings A B Hnd).
Defined.

(** X3. The answer of [isDiff] does not depend on the order of either
    list. *)
Theorem isDiff_order_independent (A A' B B' : list IP) :
  A ≡ₚ A' → B ≡ₚ B' → isDiff A B = isDiff A' B'.
Proof.
  intros HA HB.
  assert (isDiff A B = false ↔ isDiff A' B' = false) as Hiff.
  { rewrite !isDiff_false_strings.
    assert (IP_String <$> A ≡ₚ IP_String <$> A') as HsA by (by apply fmap_Permutation).
    assert (IP_String <$> B ≡ₚ IP_String <$> B') as HsB by (by apply fmap_Permutation).
    rewrite (Permutation_length HsA), (Permutation_length HsB).
    split; intros [Hlen Hsub]; (split; [done|]); intros s Hs.
    - rewrite <- HsB. apply Hsub. by rewrite HsA.
    - rewrite HsB. apply Hsub. by rewrite <- HsA. }
  destruct (isDiff A B), (isDiff A' B'); try done.
  - by apply Hiff.
  - symmetry. by apply Hiff.
Qed.

Lemma isDiff_order_independent_witness :
  let A := [Sample.ip1; Sample.ip2; Sample.ip1] in
  let A' := [Sample.ip2; Sample.ip1; Sample.ip1] in
  let B := [Sample.ip1; Sample.ip2] in
  let B' := [Sample.ip2; Sample.ip1] in
  A ≡ₚ A' ∧ B ≡ₚ B' ∧ isDiff A B = isDiff A' B'.
Proof.
  intros A A' B B'.
  assert (A ≡ₚ A') as HA by apply perm_swap.
  assert (B ≡ₚ B') as HB by apply perm_swap.
  split; [exact HA|]. split; [exact HB|].
  exact (isDiff_order_independent A A' B B' HA HB).
Defined.

(** ** Further properties of the address source *)

Section SourceMore.

Variable ParseIP : string → IP.

Lemma string_app_cons (a : ascii) (s r : string) :
  (String a s ++ r)%string = String a (s ++ r)%string.
Proof. reflexivity. Qed.

Lemma Split_no_sep (s : string) (sep : ascii) :
  occurs sep s = false → Split s sep = [s].
Proof.
  induction s as [|c s IH]; simpl; [done|].
  intros [Hc Hs]%orb_false_elim. rewrite Hc, (IH Hs). done.
Qed.

Lemma Split_at_sep (s rest : string) (sep : ascii) :
  occurs sep s = false →
  Split (s ++ String sep rest) sep = s :: Split rest sep.
Proof.
  induction s as [|c s IH]; intros Hocc.
  - change (Split (String sep rest) sep = "" :: Split rest sep).
    simpl. by rewrite Ascii.eqb_refl.
  - simpl in Hocc. apply orb_false_elim in Hocc as [Hc Hs].
    rewrite string_app_cons. simpl. rewrite Hc, (IH Hs). done.
Qed.

Lemma collected_omap (Items : list Node) :
  collected ParseIP Items = omap (contributes ParseIP) Items.
Proof.
  induction Items as [|val Items IH]; [done|].
  simpl. unfold contributes at 1.
  destruct (Annotations val !! "projectcalico.org/IPv4Address") as [strIP|] eqn:Hann;
    simpl.
  - by rewrite (collected_with _ _ _ _ Hann), IH.
  - by rewrite (collected_without _ _ _ Hann), IH.
Qed.

End SourceMore.

(** X4. On a successful query both programs return, in the order of the
    inventory, one address per node that carries the annotation
    [projectcalico.org/IPv4Address], and nothing for a node without it; no
    error is returned. *)
Theorem getKubeNodes_annotated_in_order
    (ParseIP : string → IP) (Items : list Node) (w : World) :
  (KubeNginx.getKubeNodes ParseIP (Listed Items) w).1
  = (omap (contributes ParseIP) Items, None)
  ∧ (KubeUFW.getKubeNodes ParseIP (Listed Items) w).1
    = Returned (omap (contributes ParseIP) Items, None).
Proof.
  rewrite getKubeNodes_nginx_listed, getKubeNodes_ufw_listed, collected_omap. done.
Qed.

Example getKubeNodes_mixed_inventory :
  (KubeNginx.getKubeNodes Sample.ParseIP
     (Listed [Sample.bare; Sample.node "10.0.0.2/24"; Sample.bare;
              Sample.node "10.0.0.1/24"])
     (Sample.world ∅)).1
  = ([Sample.ParseIP "10.0.0.2"; Sample.ParseIP "10.0.0.1"], None).
Proof. reflexivity. Qed.

(** X5. The text handed to [net.ParseIP] is the annotation value up to its
    first slash: a value without a slash is taken whole, and of
    [address/suffix] only the address is parsed, whatever the suffix. *)
Theorem firstField_drops_suffix (address suffix : string) :
  occurs "/" address = false →
  firstField address = address
  ∧ firstField (address ++ String "/" suffix) = address.
Proof.
  intros Hocc. unfold firstField.
  by rewrite (Split_no_sep _ _ Hocc), (Split_at_sep _ _ _ Hocc).
Qed.

Lemma firstField_drops_suffix_witness :
  occurs "/" "10.0.0.5" = false
  ∧ firstField "10.0.0.5" = "10.0.0.5"
  ∧ firstField "10.0.0.5/24/x" = "10.0.0.5".
Proof.
  assert (occurs "/" "10.0.0.5" = false) as Hocc by reflexivity.
  split; [exact Hocc|].
  exact (firstField_drops_suffix "10.0.0.5" "24/x" Hocc).
Defined.

(** ** Further properties of the firewall renderer *)

Section ScanningMore.

Import KubeUFW.

Lemma scanLine_startConfig st text :
  startConfig (scanLine st text)
  = if blnStart st then startConfig st else startConfig st ++ [text].
Proof. unfold scanLine. simpl. by destruct (blnStart st). Qed.

Lemma scanLine_blnStart st text :
  blnStart (scanLine st text) = String.eqb text startMarker || blnStart st.
Proof. unfold scanLine. simpl. by destruct (String.eqb text _). Qed.

Lemma scanLine_blnEnd st text :
  blnEnd (scanLine st text) = String.eqb text endMarker || blnEnd st.
Proof. unfold scanLine. simpl. by destruct (String.eqb text _). Qed.

Lemma scanLine_endConfig st text :
  endConfig (scanLine st text)
  = if String.eqb text endMarker || blnEnd st
    then endConfig st ++ [text] else endConfig st.
Proof. unfold scanLine. simpl. by destruct (String.eqb text _). Qed.

(** The start accumulator stops after the first start marker, whatever the
    end marker does. *)
Lemma scan_startConfig lines : ∀ st,
  startConfig (fold_left scanLine lines st)
  = startConfig st ++ (if blnStart st then [] else uptoFirst startMarker lines).
Proof.
  induction lines as [|text lines IH]; intros st; simpl.
  - destruct (blnStart st); by rewrite app_nil_r.
  - rewrite IH, scanLine_startConfig, scanLine_blnStart.
    destruct (blnStart st); simpl.
    + by rewrite orb_true_r.
    + rewrite orb_false_r.
      destruct (String.eqb text startMarker); by rewrite <- app_assoc.
Qed.

(** The end accumulator starts at the first end marker, whatever the start
    marker does. *)
Lemma scan_endConfig lines : ∀ st,
  endConfig (fold_left scanLine lines st)
  = endConfig st ++ (if blnEnd st then lines else fromFirst endMarker lines).
Proof.
  induction lines as [|text lines IH]; intros st; simpl.
  - destruct (blnEnd st); by rewrite app_nil_r.
  - rewrite IH, scanLine_endConfig, scanLine_blnEnd.
    destruct (blnEnd st); simpl.
    + rewrite !orb_true_r. by rewrite <- app_assoc.
    + rewrite !orb_false_r.
      destruct (String.eqb text endMarker); [by rewrite <- app_assoc | done].
Qed.

Lemma uptoFirst_absent marker lines :
  marker ∉ lines → uptoFirst marker lines = lines.
Proof.
  induction lines as [|l lines IH]; [done|].
  intros [Hl Hls]%not_elem_of_cons. simpl.
  apply not_eq_sym, String.eqb_neq in Hl. rewrite Hl. by rewrite IH.
Qed.

Lemma fromFirst_absent marker lines :
  marker ∉ lines → fromFirst marker lines = [].
Proof.
  induction lines as [|l lines IH]; [done|].
  intros [Hl Hls]%not_elem_of_cons. simpl.
  apply not_eq_sym, String.eqb_neq in Hl. rewrite Hl. by apply IH.
Qed.


Lemma fromFirst_found marker pre rest :
  marker ∉ pre → fromFirst marker (pre ++ marker :: rest) = marker :: rest.
Proof.
  induction pre as [|l pre IH]; simpl.
  - intros _. by rewrite String.eqb_refl.
  - intros [Hl Hpre]%not_elem_of_cons.
    apply not_eq_sym, String.eqb_neq in Hl. rewrite Hl. by apply IH.
Qed.

(** The renderer on any readable file. *)
Lemma buildUFW_by_markers fs ipList rules dat :
  os.Open fs rules = Some dat →
  buildUFW fs ipList rules
  = uptoFirst startMarker (bufio.Scan dat) ++ generatedRegion ipList
    ++ fromFirst endMarker (bufio.Scan dat).
Proof.
  intros Hopen. rewrite (buildUFW_readable _ _ _ _ Hopen). cbv zeta.
  by rewrite scan_startConfig, scan_endConfig.
Qed.

Lemma rulePair_no_marker (n : IP) :
  (startMarker ∉ rulePair n) ∧ (endMarker ∉ rulePair n).
Proof.
  unfold rulePair. split; intros Hin; apply list_elem_of_In in Hin; simpl in Hin;
    destruct Hin as [Heq|[Heq|[Heq|[]]]]; by vm_compute in Heq.
Qed.

Lemma generatedRegion_no_marker ipList :
  (startMarker ∉ generatedRegion ipList) ∧ (endMarker ∉ generatedRegion ipList).
Proof.
  unfold generatedRegion. split; intros [Hin|Hin]%elem_of_app.
  - revert Hin. apply (bool_decide_unpack _). by vm_compute.
  - apply elem_of_concat in Hin as (l & Hin & (n & -> & _)%list_elem_of_fmap).
    by apply (proj1 (rulePair_no_marker n)).
  - revert Hin. apply (bool_decide_unpack _). by vm_compute.
  - apply elem_of_concat in Hin as (l & Hin & (n & -> & _)%list_elem_of_fmap).
    by apply (proj2 (rulePair_no_marker n)).
Qed.

Lemma generatedRegion_app ipList more :
  generatedRegion (ipList ++ more)
  = generatedRegion ipList ++ concat (rulePair <$> more).
Proof. unfold generatedRegion. by rewrite fmap_app, concat_app, <- app_assoc. Qed.

End ScanningMore.

(** X6. On any readable rules file, the rendered lines are, of the lines
    the scanner delivers ([bufio.Scan]), those up to and including the
    first start marker (all of them if none is delivered), then the
    generated region, then the delivered lines from the first end marker on
    (none if none is delivered); the two markers are looked for
    independently of each other. *)
Theorem buildUFW_closed_form
    (fs : gmap string File) (rules dat : string) (ipList : list IP) :
  os.Open fs rules = Some dat →
  KubeUFW.buildUFW fs ipList rules
  = uptoFirst startMarker (bufio.Scan dat) ++ generatedRegion ipList
    ++ fromFirst endMarker (bufio.Scan dat).
Proof. apply buildUFW_by_markers. Qed.

Lemma buildUFW_closed_form_witness :
  let fs : gmap string File := {[ Sample.rules := Sample.file Sample.user_rules ]} in
  os.Open fs Sample.rules = Some Sample.user_rules
  ∧ KubeUFW.buildUFW fs [Sample.ip1] Sample.rules
    = uptoFirst startMarker (bufio.Scan Sample.user_rules) ++ generatedRegion [Sample.ip1]
      ++ fromFirst endMarker (bufio.Scan Sample.user_rules).
Proof.
  intros fs.
  assert (os.Open fs Sample.rules = Some Sample.user_rules) as Hopen by reflexivity.
  split; [exact Hopen|].
  exact (buildUFW_closed_form fs Sample.rules Sample.user_rules [Sample.ip1] Hopen).
Defined.

(** X7. On a readable rules file in which the scanner delivers neither
    marker, the rendered lines are all the lines the scanner delivers
    followed by the generated region: no delivered line is replaced or
    dropped. *)
Theorem buildUFW_without_markers
    (fs : gmap string File) (rules dat : string) (ipList : list IP) :
  os.Open fs rules = Some dat →
  (startMarker ∉ bufio.Scan dat) →
  (endMarker ∉ bufio.Scan dat) →
  KubeUFW.buildUFW fs ipList rules = bufio.Scan dat ++ generatedRegion ipList.
Proof.
  intros Hopen Hs He. rewrite (buildUFW_by_markers _ _ _ _ Hopen).
  by rewrite (uptoFirst_absent _ _ Hs), (fromFirst_absent _ _ He), app_nil_r.
Qed.

Lemma buildUFW_without_markers_witness :
  let dat := ("*filter" ++ Sample.nl ++ "COMMIT" ++ Sample.nl)%string in
  let fs : gmap string File := {[ Sample.rules := Sample.file dat ]} in
  os.Open fs Sample.rules = Some dat
  ∧ (startMarker ∉ bufio.Scan dat)
  ∧ (endMarker ∉ bufio.Scan dat)
  ∧ KubeUFW.buildUFW fs [Sample.ip1] Sample.rules
    = bufio.Scan dat ++ generatedRegion [Sample.ip1].
Proof.
  intros dat fs.
  assert (os.Open fs Sample.rules = Some dat) as Hopen by reflexivity.
  assert (startMarker ∉ bufio.Scan dat) as Hs.
  { apply (bool_decide_unpack _). vm_compute. exact I. }
  assert (endMarker ∉ bufio.Scan dat) as He.
  { apply (bool_decide_unpack _). vm_compute. exact I. }
  split; [exact Hopen|]. split; [exact Hs|]. split; [exact He|].
  exact (buildUFW_without_markers fs Sample.rules dat [Sample.ip1] Hopen Hs He).
Defined.



(** X9. No generated line is a marker line: neither [### RULES ###] nor
    [### END RULES ###] occurs in the generated region, whatever the
    addresses are. *)
Theorem generated_lines_are_no_markers (ipList : list IP) :
  (startMarker ∉ generatedRegion ipList) ∧ (endMarker ∉ generatedRegion ipList).
Proof. apply generatedRegion_no_marker. Qed.

(** X10. A rendering is a sound input for the next one.  On a file from
    which the scanner delivers an earlier rendering (a marker-free head, the
    start marker, the region generated for any addresses, the end marker,
    any further delivered lines) the renderer keeps the head, the markers
    and the delivered lines behind the end marker, and puts the region of
    the new addresses in place of the old one. *)
Theorem buildUFW_rerender
    (fs : gmap string File) (rules dat : string) (earlier ipList : list IP)
    (pre post : list string) :
  os.Open fs rules = Some dat →
  bufio.Scan dat
  = (pre ++ [startMarker]) ++ generatedRegion earlier ++ (endMarker :: post) →
  (startMarker ∉ pre) →
  (endMarker ∉ pre) →
  KubeUFW.buildUFW fs ipList rules
  = (pre ++ [startMarker]) ++ generatedRegion ipList ++ (endMarker :: post).
Proof.
  intros Hopen Hlines Hs He.
  rewrite (buildUFW_readable _ _ _ _ Hopen), Hlines. cbv zeta.
  replace ((pre ++ [startMarker]) ++ generatedRegion earlier ++ endMarker :: post)
    with (pre ++ startMarker :: generatedRegion earlier ++ endMarker :: post)
    by (by rewrite <- app_assoc).
  rewrite (scan_frame pre (generatedRegion earlier) post Hs He); [done|].
  apply generatedRegion_no_marker.
Qed.

Lemma buildUFW_rerender_witness :
  let pre := ["*filter"] in
  let post := ["COMMIT"] in
  let dat := serialized ((pre ++ [startMarker]) ++ generatedRegion [Sample.ip1; Sample.ip2]
                           ++ (endMarker :: post)) in
  let fs : gmap string File := {[ Sample.rules := Sample.file dat ]} in
  os.Open fs Sample.rules = Some dat
  ∧ bufio.Scan dat
    = (pre ++ [startMarker]) ++ generatedRegion [Sample.ip1; Sample.ip2]
      ++ (endMarker :: post)
  ∧ (startMarker ∉ pre)
  ∧ (endMarker ∉ pre)
  ∧ KubeUFW.buildUFW fs [Sample.ip2] Sample.rules
    = (pre ++ [startMarker]) ++ generatedRegion [Sample.ip2] ++ (endMarker :: post).
Proof.
  intros pre post dat fs.
  assert (os.Open fs Sample.rules = Some dat) as Hopen by reflexivity.
  assert (bufio.Scan dat
          = (pre ++ [startMarker]) ++ generatedRegion [Sample.ip1; Sample.ip2]
            ++ (endMarker :: post)) as Hlines by (vm_compute; reflexivity).
  assert (startMarker ∉ pre) as Hs.
  { apply (bool_decide_unpack _). vm_compute. exact I. }
  assert (endMarker ∉ pre) as He.
  { apply (bool_decide_unpack _). vm_compute. exact I. }
  split; [exact Hopen|]. split; [exact Hlines|]. split; [exact Hs|]. split; [exact He|].
  exact (buildUFW_rerender fs Sample.rules dat [Sample.ip1; Sample.ip2] [Sample.ip2]
           pre post Hopen Hlines Hs He).
Defined.

(** X11. Rendering is monotone in the addresses: every line rendered for a
    list of addresses is also rendered, from the same file, for any list
    that holds all of them. *)
Theorem buildUFW_monotone
    (fs : gmap string File) (rules : string) (ipList larger : list IP) (line : string) :
  (∀ n, n ∈ ipList → n ∈ larger) →
  line ∈ KubeUFW.buildUFW fs ipList rules →
  line ∈ KubeUFW.buildUFW fs larger rules.
Proof.
  intros Hsub. destruct (os.Open fs rules) as [dat|] eqn:Hopen.
  - rewrite !(buildUFW_readable _ _ _ _ Hopen). cbv zeta.
    rewrite !elem_of_app. intros [Hin|[Hin|Hin]]; [by left| |by right; right].
    right. left. unfold generatedRegion in *.
    apply elem_of_app in Hin as [Hin|Hin]; apply elem_of_app; [by left|right].
    apply elem_of_concat in Hin as (l & Hin & (n & -> & Hn)%list_elem_of_fmap).
    apply elem_of_concat. exists (rulePair n). split; [done|].
    apply list_elem_of_fmap. eauto.
  - unfold KubeUFW.buildUFW. rewrite Hopen. by intros Hin%elem_of_nil.
Qed.

Lemma buildUFW_monotone_witness :
  let fs : gmap string File := {[ Sample.rules := Sample.file Sample.user_rules ]} in
  let line := "-A ufw-user-input -p tcp --dport 27017 -s 10.0.0.1 -j ACCEPT" in
  (∀ n, n ∈ [Sample.ip1] → n ∈ [Sample.ip2; Sample.ip1])
  ∧ line ∈ KubeUFW.buildUFW fs [Sample.ip1] Sample.rules
  ∧ line ∈ KubeUFW.buildUFW fs [Sample.ip2; Sample.ip1] Sample.rules.
Proof.
  intros fs line.
  assert (∀ n, n ∈ [Sample.ip1] → n ∈ [Sample.ip2; Sample.ip1]) as Hsub.
  { intros n Hn. apply list_elem_of_In in Hn. apply list_elem_of_In.
    simpl in *. tauto. }
  assert (line ∈ KubeUFW.buildUFW fs [Sample.ip1] Sample.rules) as Hin.
  { apply (bool_decide_unpack _). vm_compute. exact I. }
  split; [exact Hsub|]. split; [exact Hin|].
  exact (buildUFW_monotone fs Sample.rules [Sample.ip1] [Sample.ip2; Sample.ip1]
           line Hsub Hin).
Defined.

(** ** Further properties of the writers and of reading back *)

Section ReadingBack.

Lemma rawLines_line (l rest : string) :
  occurs "010" l = false →
  bufio.rawLines (l ++ String "010" rest) = l :: bufio.rawLines rest.
Proof.
  induction l as [|c l IH]; intros Hocc.
  - reflexivity.
  - simpl in Hocc. apply orb_false_elim in Hocc as [Hc Hl].
    rewrite string_app_cons. simpl. rewrite Hc, (IH Hl). done.
Qed.

Lemma rawLines_serialized (lines : list string) :
  Forall (fun l => occurs "010" l = false) lines →
  bufio.rawLines (serialized lines) = lines.
Proof.
  induction 1 as [|l lines Hl Hlines IH]; [done|].
  simpl. change (String "010" "" ++ serialized lines)%string
    with (String "010" (serialized lines)).
  by rewrite (rawLines_line _ _ Hl), IH.
Qed.

Lemma fitting_short (lines : list string) :
  Forall (fun l => (N.of_nat (String.length l) <? bufio.MaxScanTokenSize)%N = true) lines →
  bufio.fitting lines = lines.
Proof.
  induction 1 as [|l lines Hl Hlines IH]; [done|].
  simpl. by rewrite Hl, IH.
Qed.

Lemma dropCR_keeps (l : string) :
  (if lastByte l is Some c then Ascii.eqb c "013" else false) = false →
  bufio.dropCR l = l.
Proof.
  induction l as [|c l IH]; [done|].
  destruct l as [|c' l]; simpl.
  - by intros ->.
  - intros Hlast. f_equal. by apply IH.
Qed.

Lemma scannable_parts (l : string) :
  scannable l = true →
  occurs "010" l = false
  ∧ (if lastByte l is Some c then Ascii.eqb c "013" else false) = false
  ∧ (N.of_nat (String.length l) <? bufio.MaxScanTokenSize)%N = true.
Proof.
  unfold scannable. intros [[H1 H2]%andb_prop H3]%andb_prop.
  apply negb_true_iff in H1, H2. done.
Qed.

Lemma Scan_serialized (lines : list string) :
  Forall (fun l => scannable l = true) lines →
  bufio.Scan (serialized lines) = lines.
Proof.
  intros Hall. unfold bufio.Scan.
  rewrite rawLines_serialized, fitting_short.
  - induction Hall as [|l lines Hl Hlines IH]; [done|].
    rewrite fmap_cons, IH. f_equal. apply dropCR_keeps.
    by apply scannable_parts in Hl as (_ & ? & _).
  - eapply Forall_impl; [exact Hall|]. intros l Hl.
    by apply scannable_parts in Hl as (_ & _ & ?).
  - eapply Forall_impl; [exact Hall|]. intros l Hl.
    by apply scannable_parts in Hl as (? & _ & _).
Qed.

Lemma writeNginx_run ngixConfig config w :
  KubeNginx.writeNginx ngixConfig config w
  = (tt, {| fs := match os.Create (fs w) config with
                  | Some f =>
                      <[config := {| data := os.WriteAt0 (data f) (KubeNginx.printed ngixConfig);
                                     readable := readable f; writable := writable f;
                                     present := true |}]>
                        (fs w)
                  | None => fs w
                  end;
            trace := trace w ++ [EvWrite config (opened (os.Create (fs w) config))] |}).
Proof.
  unfold KubeNginx.writeNginx, mbind, Run_bind, files.
  by destruct (os.Create (fs w) config).
Qed.

Lemma writeUFW_run ufwConfig rules w :
  KubeUFW.writeUFW ufwConfig rules w
  = (tt, {| fs := match os.OpenFile_CREATE_WRONLY (fs w) rules with
                  | Some f =>
                      <[rules := {| data := os.WriteAt0 (data f) (KubeUFW.buffered ufwConfig);
                                    readable := readable f; writable := writable f;
                                    present := true |}]>
                        (fs w)
                  | None => fs w
                  end;
            trace := trace w
                     ++ [EvWrite rules (opened (os.OpenFile_CREATE_WRONLY (fs w) rules))] |}).
Proof.
  unfold KubeUFW.writeUFW, mbind, Run_bind, files.
  by destruct (os.OpenFile_CREATE_WRONLY (fs w) rules).
Qed.

End ReadingBack.

(** X12. What a writer puts out is read back line for line.  For lines
    without a newline in them, without a carriage return at their end and
    shorter than the scanner's buffer, scanning the bytes either writer
    emits gives the same lines again. *)
Theorem written_lines_scan_back (lines : list string) :
  Forall (fun l => scannable l = true) lines →
  bufio.Scan (KubeUFW.buffered lines) = lines
  ∧ bufio.Scan (KubeNginx.printed lines) = lines.
Proof.
  intros Hall. rewrite buffered_serialized, printed_serialized.
  by rewrite (Scan_serialized _ Hall).
Qed.

Lemma written_lines_scan_back_witness :
  let lines := ["*filter"; ""; "### RULES ###"; "COMMIT"] in
  Forall (fun l => scannable l = true) lines
  ∧ bufio.Scan (KubeUFW.buffered lines) = lines.
Proof.
  intros lines.
  assert (Forall (fun l => scannable l = true) lines) as Hall.
  { repeat constructor. }
  split; [exact Hall|].
  exact (proj1 (written_lines_scan_back lines Hall)).
Defined.

(** A carriage return at the end of a line does not come back. *)
Example carriage_return_is_lost :
  bufio.Scan (KubeUFW.buffered [String "a" (String "013" "")]) = ["a"].
Proof. reflexivity. Qed.

(** X13. When [writeNginx] gets the file open, the file afterwards holds
    the lines, each followed by a newline, and nothing else, whatever it
    held before. *)
Theorem writeNginx_exact
    (ngixConfig : list string) (config : string) (w : World) (f : File) :
  os.Create (fs w) config = Some f →
  data <$> (fs (KubeNginx.writeNginx ngixConfig config w).2 !! config)
  = Some (serialized ngixConfig).
Proof. apply writeNginx_content. Qed.

Lemma writeNginx_exact_witness :
  let old := ("old-1" ++ Sample.nl ++ "old-2" ++ Sample.nl)%string in
  let w := Sample.world {[ Sample.nginxconfig := Sample.file old ]} in
  os.Create (fs w) Sample.nginxconfig = Some (Sample.file "")
  ∧ data <$> (fs (KubeNginx.writeNginx ["new"] Sample.nginxconfig w).2
                !! Sample.nginxconfig)
    = Some (serialized ["new"]).
Proof.
  intros old w.
  assert (os.Create (fs w) Sample.nginxconfig = Some (Sample.file "")) as Hc
    by reflexivity.
  split; [exact Hc|].
  exact (writeNginx_exact ["new"] Sample.nginxconfig w (Sample.file "") Hc).
Defined.

(** X14. When [writeUFW] gets the file open and the file holds no more
    bytes than the lines take (a new file, or a rendering that did not
    shrink), the file afterwards holds exactly the lines. *)
Theorem writeUFW_exact_when_not_shorter
    (ufwConfig : list string) (rules : string) (w : World) (f : File) :
  os.OpenFile_CREATE_WRONLY (fs w) rules = Some f →
  (String.length (data f) ≤ String.length (serialized ufwConfig))%nat →
  data <$> (fs (KubeUFW.writeUFW ufwConfig rules w).2 !! rules)
  = Some (serialized ufwConfig).
Proof.
  intros Ho Hle. rewrite (writeUFW_content _ _ _ _ Ho).
  by rewrite (WriteAt0_no_stale _ _ Hle).
Qed.

Lemma writeUFW_exact_when_not_shorter_witness :
  let w := Sample.world {[ Sample.rules := Sample.file "old" ]} in
  os.OpenFile_CREATE_WRONLY (fs w) Sample.rules = Some (Sample.file "old")
  ∧ (String.length (data (Sample.file "old")) ≤ String.length (serialized ["new"]))%nat
  ∧ data <$> (fs (KubeUFW.writeUFW ["new"] Sample.rules w).2 !! Sample.rules)
    = Some (serialized ["new"]).
Proof.
  intros w.
  assert (os.OpenFile_CREATE_WRONLY (fs w) Sample.rules = Some (Sample.file "old"))
    as Ho by reflexivity.
  assert (String.length (data (Sample.file "old")) ≤ String.length (serialized ["new"]))%nat
    as Hle by (vm_compute; lia).
  split; [exact Ho|]. split; [exact Hle|].
  exact (writeUFW_exact_when_not_shorter ["new"] Sample.rules w (Sample.file "old") Ho Hle).
Defined.

(** ** Further properties of the loops *)

Section CyclesMore.

Variable ParseIP : string → IP.

(** A turn of the load-balancer loop that finds a change, in full. *)
Lemma nginx_cycle_changed_run nginxconfig systemctl Items oldHosts w :
  isDiff (collected ParseIP Items) oldHosts = true →
  KubeNginx.cycle ParseIP nginxconfig systemctl (Listed Items) oldHosts w
  = (collected ParseIP Items,
     {| fs := match os.Create (fs w) nginxconfig with
              | Some f =>
                  <[nginxconfig :=
                      {| data := os.WriteAt0 (data f)
                                   (KubeNginx.printed
                                      (KubeNginx.buildNginx (collected ParseIP Items)));
                         readable := readable f; writable := writable f;
                         present := true |}]> (fs w)
              | None => fs w
              end;
        trace := trace w
                 ++ [EvQuery; EvRender;
                     EvWrite nginxconfig (opened (os.Create (fs w) nginxconfig));
                     EvSleep 5; EvExec systemctl ["reload"; "nginx"]; EvSleep 5] |}).
Proof.
  intros Hdiff.
  unfold KubeNginx.cycle, KubeNginx.getKubeNodes, KubeNginx.NginxReload,
    mbind, Run_bind, mret, Run_ret, emit.
  simpl. fold (collected ParseIP Items). rewrite Hdiff, writeNginx_run. simpl.
  by rewrite <- !app_assoc.
Qed.

(** A turn of the firewall loop that finds a change, in full. *)
Lemma ufw_cycle_changed_run rules ufwcmd Items oldHosts w :
  isDiff (collected ParseIP Items) oldHosts = true →
  KubeUFW.cycle ParseIP rules ufwcmd (Listed Items) oldHosts w
  = (Returned (collected ParseIP Items),
     {| fs := match os.OpenFile_CREATE_WRONLY (fs w) rules with
              | Some f =>
                  <[rules :=
                      {| data := os.WriteAt0 (data f)
                                   (KubeUFW.buffered
                                      (KubeUFW.buildUFW (fs w) (collected ParseIP Items) rules));
                         readable := readable f; writable := writable f;
                         present := true |}]> (fs w)
              | None => fs w
              end;
        trace := trace w
                 ++ [EvQuery; EvRender;
                     EvWrite rules (opened (os.OpenFile_CREATE_WRONLY (fs w) rules));
                     EvExec ufwcmd ["reload"]; EvSleep 5; EvSleep 5] |}).
Proof.
  intros Hdiff.
  unfold KubeUFW.cycle, KubeUFW.getKubeNodes, KubeUFW.UFWReload,
    mbind, Run_bind, mret, Run_ret, emit, files.
  simpl. fold (collected ParseIP Items). rewrite Hdiff, writeUFW_run. simpl.
  by rewrite <- !app_assoc.
Qed.

(** A turn of the firewall loop that finds no change. *)
Lemma ufw_cycle_unchanged rules ufwcmd Items oldHosts w :
  isDiff (collected ParseIP Items) oldHosts = false →
  KubeUFW.cycle ParseIP rules ufwcmd (Listed Items) oldHosts w
  = (Returned (collected ParseIP Items),
     {| fs := fs w; trace := trace w ++ [EvQuery; EvSleep 5] |}).
Proof.
  intros Hdiff.
  unfold KubeUFW.cycle, KubeUFW.getKubeNodes, mbind, Run_bind, mret, Run_ret, emit.
  simpl. fold (collected ParseIP Items). rewrite Hdiff. simpl.
  by rewrite <- !app_assoc.
Qed.

(** What one turn of the load-balancer loop adds to the trace and does to
    the files. *)
Lemma nginx_cycle_shape nginxconfig systemctl reply oldHosts w :
  ∃ evs,
    trace (KubeNginx.cycle ParseIP nginxconfig systemctl reply oldHosts w).2
    = trace w ++ evs
    ∧ (actions evs = []
       ∨ ∃ o, actions evs
              = [EvRender; EvWrite nginxconfig o; EvExec systemctl ["reload"; "nginx"]])
    ∧ ∀ path, path ≠ nginxconfig →
        fs (KubeNginx.cycle ParseIP nginxconfig systemctl reply oldHosts w).2 !! path
        = fs w !! path.
Proof.
  destruct reply as [err|err|err|Items];
    try (exists [EvQuery]; rewrite nginx_cycle_failed by done; simpl; by auto).
  destruct (isDiff (collected ParseIP Items) oldHosts) eqn:Hdiff.
  - rewrite (nginx_cycle_changed_run _ _ _ _ _ Hdiff). eexists. simpl.
    split; [reflexivity|]. split; [right; by eexists|].
    intros path Hne. destruct (os.Create (fs w) nginxconfig); [|done].
    by rewrite lookup_insert_ne.
  - rewrite (nginx_cycle_unchanged _ _ _ _ _ _ Hdiff). eexists. simpl.
    split; [reflexivity|]. by auto.
Qed.

(** The same for one turn of the firewall loop. *)
Lemma ufw_cycle_shape rules ufwcmd reply oldHosts w :
  ∃ evs,
    trace (KubeUFW.cycle ParseIP rules ufwcmd reply oldHosts w).2 = trace w ++ evs
    ∧ (actions evs = []
       ∨ ∃ o, actions evs = [EvRender; EvWrite rules o; EvExec ufwcmd ["reload"]])
    ∧ ∀ path, path ≠ rules →
        fs (KubeUFW.cycle ParseIP rules ufwcmd reply oldHosts w).2 !! path
        = fs w !! path.
Proof.
  destruct reply as [err|err|err|Items];
    try (exists [EvQuery]; simpl; by auto).
  destruct (isDiff (collected ParseIP Items) oldHosts) eqn:Hdiff.
  - rewrite (ufw_cycle_changed_run _ _ _ _ _ Hdiff). eexists. simpl.
    split; [reflexivity|]. split; [right; by eexists|].
    intros path Hne. destruct (os.OpenFile_CREATE_WRONLY (fs w) rules); [|done].
    by rewrite lookup_insert_ne.
  - rewrite (ufw_cycle_unchanged _ _ _ _ _ Hdiff). eexists. simpl.
    split; [reflexivity|]. by auto.
Qed.

Lemma triples_after (evs rest : list Event) :
  (evs = [] ∨ ∃ p o c a, evs = [EvRender; EvWrite p o; EvExec c a]) →
  triples (evs ++ rest) = triples rest.
Proof. by intros [->|(p & o & c & a & ->)]. Qed.

Lemma actions_app (evs1 evs2 : list Event) :
  actions (evs1 ++ evs2) = actions evs1 ++ actions evs2.
Proof. apply filter_app. Qed.

(** What a run of the load-balancer loop adds to the trace and does to the
    files. *)
Lemma nginx_loop_shape nginxconfig systemctl replies : ∀ oldHosts w,
  ∃ evs,
    trace (KubeNginx.loop ParseIP nginxconfig systemctl replies oldHosts w).2
    = trace w ++ evs
    ∧ triples (actions evs) = true
    ∧ ∀ path, path ≠ nginxconfig →
        fs (KubeNginx.loop ParseIP nginxconfig systemctl replies oldHosts w).2 !! path
        = fs w !! path.
Proof.
  induction replies as [|reply later IH]; intros oldHosts w.
  - exists []. simpl. by rewrite app_nil_r.
  - simpl. unfold mbind, Run_bind.
    destruct (nginx_cycle_shape nginxconfig systemctl reply oldHosts w)
      as (evs1 & Htr1 & Hact1 & Hfs1).
    destruct (KubeNginx.cycle ParseIP nginxconfig systemctl reply oldHosts w)
      as [oldHosts' w'].
    simpl in Htr1, Hfs1.
    destruct (IH oldHosts' w') as (evs2 & Htr2 & Hact2 & Hfs2).
    exists (evs1 ++ evs2). split; [by rewrite Htr2, Htr1, app_assoc|]. split.
    + rewrite actions_app, triples_after; [done|].
      destruct Hact1 as [?|[o ?]]; [by left|right; by eauto].
    + intros path Hne. by rewrite Hfs2, Hfs1.
Qed.

(** The same for a run of the firewall loop. *)
Lemma ufw_loop_shape rules ufwcmd replies : ∀ oldHosts w,
  ∃ evs,
    trace (KubeUFW.loop ParseIP rules ufwcmd replies oldHosts w).2 = trace w ++ evs
    ∧ triples (actions evs) = true
    ∧ ∀ path, path ≠ rules →
        fs (KubeUFW.loop ParseIP rules ufwcmd replies oldHosts w).2 !! path
        = fs w !! path.
Proof.
  induction replies as [|reply later IH]; intros oldHosts w.
  - exists []. simpl. by rewrite app_nil_r.
  - simpl. unfold mbind, Run_bind.
    destruct (ufw_cycle_shape rules ufwcmd reply oldHosts w)
      as (evs1 & Htr1 & Hact1 & Hfs1).
    destruct (KubeUFW.cycle ParseIP rules ufwcmd reply oldHosts w)
      as [[oldHosts'|msg] w']; simpl in Htr1, Hfs1.
    + destruct (IH oldHosts' w') as (evs2 & Htr2 & Hact2 & Hfs2).
      exists (evs1 ++ evs2). split; [by rewrite Htr2, Htr1, app_assoc|]. split.
      * rewrite actions_app, triples_after; [done|].
        destruct Hact1 as [?|[o ?]]; [by left|right; by eauto].
      * intros path Hne. by rewrite Hfs2, Hfs1.
    + exists evs1. simpl. split; [done|]. split; [|done].
      by destruct Hact1 as [->|[o ->]].
Qed.

Lemma nginx_loop_app nginxconfig systemctl replies1 replies2 : ∀ oldHosts w,
  KubeNginx.loop ParseIP nginxconfig systemctl (replies1 ++ replies2) oldHosts w
  = let r := KubeNginx.loop ParseIP nginxconfig systemctl replies1 oldHosts w in
    KubeNginx.loop ParseIP nginxconfig systemctl replies2 r.1 r.2.
Proof.
  induction replies1 as [|reply later IH]; intros oldHosts w; [done|].
  simpl. unfold mbind, Run_bind.
  destruct (KubeNginx.cycle ParseIP nginxconfig systemctl reply oldHosts w)
    as [oldHosts' w'].
  apply IH.
Qed.

Lemma nginx_loop_failures nginxconfig systemctl failures : ∀ oldHosts w,
  Forall failed failures →
  KubeNginx.loop ParseIP nginxconfig systemctl failures oldHosts w
  = (oldHosts,
     {| fs := fs w; trace := trace w ++ replicate (length failures) EvQuery |}).
Proof.
  induction failures as [|reply later IH]; intros oldHosts w Hall.
  - simpl. rewrite app_nil_r. by destruct w.
  - apply Forall_cons in Hall as [Hfail Hlater]. simpl. unfold mbind, Run_bind.
    rewrite (nginx_cycle_failed _ _ _ _ _ _ Hfail), (IH _ _ Hlater). simpl.
    by rewrite <- app_assoc.
Qed.

Lemma nginx_cycle_listed_result nginxconfig systemctl Items oldHosts w :
  (KubeNginx.cycle ParseIP nginxconfig systemctl (Listed Items) oldHosts w).1
  = collected ParseIP Items.
Proof.
  destruct (isDiff (collected ParseIP Items) oldHosts) eqn:Hdiff.
  - by rewrite (nginx_cycle_changed_run _ _ _ _ _ Hdiff).
  - by rewrite (nginx_cycle_unchanged _ _ _ _ _ _ Hdiff).
Qed.

End CyclesMore.

(** X16. A run of either loop changes no file other than its artifact: the
    load-balancer loop touches the upstream file only, the firewall loop the
    rules file only, whatever the cluster answers. *)
Theorem loops_touch_only_their_artifact
    (ParseIP : string → IP) (artifact cmd path : string) (replies : list KubeReply)
    (oldHosts : list IP) (w : World) :
  path ≠ artifact →
  fs (KubeNginx.loop ParseIP artifact cmd replies oldHosts w).2 !! path = fs w !! path
  ∧ fs (KubeUFW.loop ParseIP artifact cmd replies oldHosts w).2 !! path = fs w !! path.
Proof.
  intros Hne. split.
  - destruct (nginx_loop_shape ParseIP artifact cmd replies oldHosts w)
      as (evs & _ & _ & Hfs). by apply Hfs.
  - destruct (ufw_loop_shape ParseIP artifact cmd replies oldHosts w)
      as (evs & _ & _ & Hfs). by apply Hfs.
Qed.

Lemma loops_touch_only_their_artifact_witness :
  let w := Sample.world {[ Sample.rules := Sample.file Sample.user_rules ]} in
  let replies := [Listed [Sample.node "10.0.0.5/24"]] in
  Sample.rules ≠ Sample.nginxconfig
  ∧ fs (KubeNginx.loop Sample.ParseIP Sample.nginxconfig Sample.systemctl replies [] w).2
      !! Sample.rules
    = fs w !! Sample.rules.
Proof.
  intros w replies.
  assert (Sample.rules ≠ Sample.nginxconfig) as Hne by (by vm_compute).
  split; [exact Hne|].
  exact (proj1 (loops_touch_only_their_artifact Sample.ParseIP Sample.nginxconfig
                  Sample.systemctl Sample.rules replies [] w Hne)).
Defined.

(** X17. A turn whose answer holds the addresses of the snapshot, in any
    order, renders, writes and reloads nothing in either program: it
    queries, sleeps five seconds, leaves the files alone and takes the
    answer as the new snapshot. *)
Theorem stable_inventory_turn_is_idle
    (ParseIP : string → IP) (artifact cmd : string) (Items : list Node)
    (oldHosts : list IP) (w : World) :
  IP_String <$> collected ParseIP Items ≡ₚ IP_String <$> oldHosts →
  KubeNginx.cycle ParseIP artifact cmd (Listed Items) oldHosts w
  = (collected ParseIP Items,
     {| fs := fs w; trace := trace w ++ [EvQuery; EvSleep 5] |})
  ∧ KubeUFW.cycle ParseIP artifact cmd (Listed Items) oldHosts w
    = (Returned (collected ParseIP Items),
       {| fs := fs w; trace := trace w ++ [EvQuery; EvSleep 5] |}).
Proof.
  intros Hsame. apply isDiff_false_of_Permutation in Hsame. split.
  - by apply nginx_cycle_unchanged.
  - by apply ufw_cycle_unchanged.
Qed.

Lemma stable_inventory_turn_is_idle_witness :
  let Items := [Sample.node "10.0.0.1/24"; Sample.node "10.0.0.2/24"] in
  let oldHosts := [Sample.ip2; Sample.ip1] in
  let w := Sample.world ∅ in
  IP_String <$> collected Sample.ParseIP Items ≡ₚ IP_String <$> oldHosts
  ∧ KubeNginx.cycle Sample.ParseIP Sample.nginxconfig Sample.systemctl
      (Listed Items) oldHosts w
    = (collected Sample.ParseIP Items,
       {| fs := fs w; trace := trace w ++ [EvQuery; EvSleep 5] |}).
Proof.
  intros Items oldHosts w.
  assert (IP_String <$> collected Sample.ParseIP Items ≡ₚ IP_String <$> oldHosts)
    as Hsame.
  { change (["10.0.0.1"; "10.0.0.2"] ≡ₚ ["10.0.0.2"; "10.0.0.1"]). apply perm_swap. }
  split; [exact Hsame|].
  exact (proj1 (stable_inventory_turn_is_idle Sample.ParseIP Sample.nginxconfig
                  Sample.systemctl Items oldHosts w Hsame)).
Defined.

(** X18. While the queries fail, the load-balancer loop does nothing but
    query: a run over failed answers adds one query per answer to the
    trace and no sleep between them, and keeps snapshot and files. *)
Theorem nginx_failures_are_not_paced
    (ParseIP : string → IP) (nginxconfig systemctl : string)
    (failures : list KubeReply) (oldHosts : list IP) (w : World) :
  Forall failed failures →
  KubeNginx.loop ParseIP nginxconfig systemctl failures oldHosts w
  = (oldHosts,
     {| fs := fs w; trace := trace w ++ replicate (length failures) EvQuery |}).
Proof. apply nginx_loop_failures. Qed.

Lemma nginx_failures_are_not_paced_witness :
  let failures := [ListFails "timeout"; ConfigFails "no such file"; ListFails "timeout"] in
  let w := Sample.world ∅ in
  Forall failed failures
  ∧ KubeNginx.loop Sample.ParseIP Sample.nginxconfig Sample.systemctl failures
      [Sample.ip1] w
    = ([Sample.ip1], {| fs := fs w; trace := trace w ++ [EvQuery; EvQuery; EvQuery] |}).
Proof.
  intros failures w.
  assert (Forall failed failures) as Hall by (repeat constructor).
  split; [exact Hall|].
  exact (nginx_failures_are_not_paced Sample.ParseIP Sample.nginxconfig
           Sample.systemctl failures [Sample.ip1] w Hall).
Defined.

(** X19. The firewall loop does not survive a failed query: it ends with the
    panic right after the query, with the files as they were, and never
    looks at a later answer of the cluster. *)
Theorem ufw_loop_ends_at_failure
    (ParseIP : string → IP) (rules ufwcmd : string) (reply : KubeReply)
    (later : list KubeReply) (oldHosts : list IP) (w : World) :
  failed reply →
  ∃ msg,
    KubeUFW.loop ParseIP rules ufwcmd (reply :: later) oldHosts w
    = (Panicked msg, {| fs := fs w; trace := trace w ++ [EvQuery] |}).
Proof.
  intros Hfail.
  destruct (ufw_cycle_failed ParseIP rules ufwcmd reply oldHosts w Hfail) as [msg Hturn].
  exists msg. simpl. unfold mbind, Run_bind. by rewrite Hturn.
Qed.

Lemma ufw_loop_ends_at_failure_witness :
  let w := Sample.world {[ Sample.rules := Sample.file Sample.user_rules ]} in
  failed (ClientFails "bad config")
  ∧ ∃ msg,
      KubeUFW.loop Sample.ParseIP Sample.rules Sample.ufwcmd
        [ClientFails "bad config"; Listed [Sample.node "10.0.0.5/24"]] [] w
      = (Panicked msg, {| fs := fs w; trace := trace w ++ [EvQuery] |}).
Proof.
  intros w.
  assert (failed (ClientFails "bad config")) as Hfail by exact I.
  split; [exact Hfail|].
  exact (ufw_loop_ends_at_failure Sample.ParseIP Sample.rules Sample.ufwcmd
           (ClientFails "bad config") [Listed [Sample.node "10.0.0.5/24"]] [] w Hfail).
Defined.

(** X20. Over any run of either loop, the rendering, writing and reloading
    events come in threes and in this order: a render, then the write of
    what was rendered, then the reload.  No reload is started without a
    render and a write attempt right before it, and no write is attempted
    that is not followed by a reload. *)
Theorem loops_act_in_triples
    (ParseIP : string → IP) (artifact cmd : string) (replies : list KubeReply)
    (oldHosts : list IP) (w : World) :
  triples (actions (events (KubeNginx.loop ParseIP artifact cmd replies oldHosts) w)) = true
  ∧ triples (actions (events (KubeUFW.loop ParseIP artifact cmd replies oldHosts) w)) = true.
Proof.
  split.
  - destruct (nginx_loop_shape ParseIP artifact cmd replies oldHosts w)
      as (evs & Htr & Htriples & _).
    by rewrite (events_extend _ _ _ Htr).
  - destruct (ufw_loop_shape ParseIP artifact cmd replies oldHosts w)
      as (evs & Htr & Htriples & _).
    by rewrite (events_extend _ _ _ Htr).
Qed.

(** X21. The snapshot of the load-balancer loop is the answer of the last
    query that succeeded, whether or not that turn found a change and
    however many queries failed after it. *)
Theorem nginx_snapshot_is_last_answer
    (ParseIP : string → IP) (nginxconfig systemctl : string)
    (before failures : list KubeReply) (Items : list Node)
    (oldHosts : list IP) (w : World) :
  Forall failed failures →
  (KubeNginx.loop ParseIP nginxconfig systemctl
     (before ++ Listed Items :: failures) oldHosts w).1
  = collected ParseIP Items.
Proof.
  intros Hall. rewrite nginx_loop_app. cbv zeta.
  change (Listed Items :: failures) with ([Listed Items] ++ failures).
  rewrite nginx_loop_app. cbv zeta.
  rewrite (nginx_loop_failures _ _ _ _ _ _ Hall). simpl.
  unfold mbind, Run_bind.
  match goal with
  | |- context [KubeNginx.cycle ParseIP nginxconfig systemctl (Listed Items) ?o ?w'] =>
      pose proof (nginx_cycle_listed_result ParseIP nginxconfig systemctl Items o w')
        as Hres;
      destruct (KubeNginx.cycle ParseIP nginxconfig systemctl (Listed Items) o w')
  end.
  exact Hres.
Qed.

Lemma nginx_snapshot_is_last_answer_witness :
  let before := [Listed [Sample.node "10.0.0.1/24"]; ListFails "timeout"] in
  let Items := [Sample.node "10.0.0.2/24"] in
  let failures := [ListFails "timeout"] in
  Forall failed failures
  ∧ (KubeNginx.loop Sample.ParseIP Sample.nginxconfig Sample.systemctl
       (before ++ Listed Items :: failures) [] (Sample.world ∅)).1
    = collected Sample.ParseIP Items.
Proof.
  intros before Items failures.
  assert (Forall failed failures) as Hall by (repeat constructor).
  split; [exact Hall|].
  exact (nginx_snapshot_is_last_answer Sample.ParseIP Sample.nginxconfig
           Sample.systemctl before failures Items [] (Sample.world ∅) Hall).
Defined.

(** X22. When the firewall loop finds a change, the rules file cannot be
    opened for reading, and the writer's open creates it afresh (no file is
    there and the directory lets the process create one), the turn leaves
    behind an empty rules file and starts the reload all the same: nothing
    was rendered, so not even the static rules are written. *)
Theorem ufw_missing_rules_file
    (ParseIP : string → IP) (rules ufwcmd : string) (Items : list Node)
    (oldHosts : list IP) (w : World) :
  os.Open (fs w) rules = None →
  os.OpenFile_CREATE_WRONLY (fs w) rules = Some os.created →
  isDiff (collected ParseIP Items) oldHosts = true →
  KubeUFW.cycle ParseIP rules ufwcmd (Listed Items) oldHosts w
  = (Returned (collected ParseIP Items),
     {| fs := <[rules := os.created]> (fs w);
        trace := trace w ++ [EvQuery; EvRender; EvWrite rules true;
                             EvExec ufwcmd ["reload"]; EvSleep 5; EvSleep 5] |}).
Proof.
  intros Hopen Hcreate Hdiff. rewrite (ufw_cycle_changed_run _ _ _ _ _ _ Hdiff).
  rewrite Hcreate. unfold KubeUFW.buildUFW. rewrite Hopen.
  reflexivity.
Qed.

Lemma ufw_missing_rules_file_witness :
  let Items := [Sample.node "10.0.0.5/24"] in
  let w := Sample.world ∅ in
  os.Open (fs w) Sample.rules = None
  ∧ os.OpenFile_CREATE_WRONLY (fs w) Sample.rules = Some os.created
  ∧ isDiff (collected Sample.ParseIP Items) [] = true
  ∧ KubeUFW.cycle Sample.ParseIP Sample.rules Sample.ufwcmd (Listed Items) [] w
    = (Returned (collected Sample.ParseIP Items),
       {| fs := <[Sample.rules := os.created]> (fs w);
          trace := trace w ++ [EvQuery; EvRender; EvWrite Sample.rules true;
                               EvExec Sample.ufwcmd ["reload"]; EvSleep 5; EvSleep 5] |}).
Proof.
  intros Items w.
  assert (os.Open (fs w) Sample.rules = None) as Hopen by reflexivity.
  assert (os.OpenFile_CREATE_WRONLY (fs w) Sample.rules = Some os.created) as Hcreate
    by reflexivity.
  assert (isDiff (collected Sample.ParseIP Items) [] = true) as Hdiff by reflexivity.
  split; [exact Hopen|]. split; [exact Hcreate|]. split; [exact Hdiff|].
  exact (ufw_missing_rules_file Sample.ParseIP Sample.rules Sample.ufwcmd Items [] w
           Hopen Hcreate Hdiff).
Defined.

(** Where no file is at the rules path and none can be created, the same
    turn changes no file and starts the reload all the same. *)
Example ufw_rules_path_closed :
  let nowhere := {| data := ""; readable := false; writable := false; present := false |} in
  let w := Sample.world {[ Sample.rules := nowhere ]} in
  KubeUFW.cycle Sample.ParseIP Sample.rules Sample.ufwcmd
    (Listed [Sample.node "10.0.0.5/24"]) [] w
  = (Returned [Sample.ParseIP "10.0.0.5"],
     {| fs := fs w;
        trace := [EvQuery; EvRender; EvWrite Sample.rules false;
                  EvExec Sample.ufwcmd ["reload"]; EvSleep 5; EvSleep 5] |}).
Proof. reflexivity. Qed.

(** X23. After a turn of the load-balancer loop that found a change and got
    the upstream file open, the file holds exactly the rendering of the
    addresses just fetched, each line followed by a newline. *)
Theorem nginx_turn_writes_the_rendering
    (ParseIP : string → IP) (nginxconfig systemctl : string) (Items : list Node)
    (oldHosts : list IP) (w : World) (f : File) :
  isDiff (collected ParseIP Items) oldHosts = true →
  os.Create (fs w) nginxconfig = Some f →
  data <$> (fs (KubeNginx.cycle ParseIP nginxconfig systemctl (Listed Items) oldHosts w).2
              !! nginxconfig)
  = Some (serialized (KubeNginx.buildNginx (collected ParseIP Items))).
Proof.
  intros Hdiff Hc. rewrite (nginx_cycle_changed_run _ _ _ _ _ _ Hdiff), Hc. simpl.
  rewrite lookup_insert_eq. simpl. f_equal.
  assert (data f = "") as ->.
  { unfold os.Create in Hc. destruct (fs w !! nginxconfig) as [g|].
    - destruct (present g && readable g && writable g); by simplify_eq.
    - by simplify_eq. }
  unfold os.WriteAt0. by rewrite skip_from_empty, string_app_nil_r, printed_serialized.
Qed.

Lemma nginx_turn_writes_the_rendering_witness :
  let Items := [Sample.node "10.0.0.5/24"] in
  let w := Sample.world {[ Sample.nginxconfig := Sample.file "stale" ]} in
  isDiff (collected Sample.ParseIP Items) [] = true
  ∧ os.Create (fs w) Sample.nginxconfig = Some (Sample.file "")
  ∧ data <$> (fs (KubeNginx.cycle Sample.ParseIP Sample.nginxconfig Sample.systemctl
                    (Listed Items) [] w).2 !! Sample.nginxconfig)
    = Some (serialized (KubeNginx.buildNginx (collected Sample.ParseIP Items))).
Proof.
  intros Items w.
  assert (isDiff (collected Sample.ParseIP Items) [] = true) as Hdiff by reflexivity.
  assert (os.Create (fs w) Sample.nginxconfig = Some (Sample.file "")) as Hc
    by reflexivity.
  split; [exact Hdiff|]. split; [exact Hc|].
  exact (nginx_turn_writes_the_rendering Sample.ParseIP Sample.nginxconfig
           Sample.systemctl Items [] w (Sample.file "") Hdiff Hc).
Defined.

(** X24. After a turn of the firewall loop that found a change and got the
    rules file open, the file holds exactly the rendering, each line followed
    by a newline, provided the file held no more bytes than the rendering
    takes. *)
Theorem ufw_turn_writes_the_rendering
    (ParseIP : string → IP) (rules ufwcmd : string) (Items : list Node)
    (oldHosts : list IP) (w : World) (f : File) :
  isDiff (collected ParseIP Items) oldHosts = true →
  os.OpenFile_CREATE_WRONLY (fs w) rules = Some f →
  (String.length (data f)
   ≤ String.length (serialized (KubeUFW.buildUFW (fs w) (collected ParseIP Items) rules)))%nat →
  data <$> (fs (KubeUFW.cycle ParseIP rules ufwcmd (Listed Items) oldHosts w).2 !! rules)
  = Some (serialized (KubeUFW.buildUFW (fs w) (collected ParseIP Items) rules)).
Proof.
  intros Hdiff Ho Hle. rewrite (ufw_cycle_changed_run _ _ _ _ _ _ Hdiff), Ho. simpl.
  rewrite lookup_insert_eq. simpl. f_equal.
  rewrite buffered_serialized. by apply WriteAt0_no_stale.
Qed.

Lemma ufw_turn_writes_the_rendering_witness :
  let Items := [Sample.node "10.0.0.5/24"] in
  let w := Sample.world {[ Sample.rules := Sample.file Sample.user_rules ]} in
  isDiff (collected Sample.ParseIP Items) [] = true
  ∧ os.OpenFile_CREATE_WRONLY (fs w) Sample.rules = Some (Sample.file Sample.user_rules)
  ∧ (String.length (data (Sample.file Sample.user_rules))
     ≤ String.length
         (serialized (KubeUFW.buildUFW (fs w) (collected Sample.ParseIP Items)
                        Sample.rules)))%nat
  ∧ data <$> (fs (KubeUFW.cycle Sample.ParseIP Sample.rules Sample.ufwcmd
                    (Listed Items) [] w).2 !! Sample.rules)
    = Some (serialized (KubeUFW.buildUFW (fs w) (collected Sample.ParseIP Items)
                          Sample.rules)).
Proof.
  intros Items w.
  assert (isDiff (collected Sample.ParseIP Items) [] = true) as Hdiff by reflexivity.
  assert (os.OpenFile_CREATE_WRONLY (fs w) Sample.rules
          = Some (Sample.file Sample.user_rules)) as Ho by reflexivity.
  assert (String.length (data (Sample.file Sample.user_rules))
          ≤ String.length
              (serialized (KubeUFW.buildUFW (fs w) (collected Sample.ParseIP Items)
                             Sample.rules)))%nat as Hle by (vm_compute; lia).
  split; [exact Hdiff|]. split; [exact Ho|]. split; [exact Hle|].
  exact (ufw_turn_writes_the_rendering Sample.ParseIP Sample.rules Sample.ufwcmd
           Items [] w (Sample.file Sample.user_rules) Hdiff Ho Hle).
Defined.

(** ** The differ and the renderers together *)

Section SkippedRender.

Lemma serverLine_same_string port (i k : IP) :
  IP_String i = IP_String k → serverLine port i = serverLine port k.
Proof. unfold serverLine. by intros ->. Qed.

Lemma rulePair_same_string (i k : IP) :
  IP_String i = IP_String k → rulePair i = rulePair k.
Proof. unfold rulePair. by intros ->. Qed.

Lemma upstreamBlock_matched name port (A B : list IP) line :
  (∀ v, v ∈ A → hasMatch v B = true) →
  line ∈ upstreamBlock name port A → line ∈ upstreamBlock name port B.
Proof.
  intros Hall. unfold upstreamBlock. rewrite !elem_of_app.
  intros [Hin|[Hin|Hin]]; [by left| |by right; right].
  right. left. apply list_elem_of_fmap in Hin as (i & -> & Hi).
  destruct (proj1 (hasMatch_true i B) (Hall i Hi)) as (k & Hk & Heq).
  rewrite (serverLine_same_string port i k Heq). apply list_elem_of_fmap. eauto.
Qed.

Lemma generatedRegion_matched (A B : list IP) line :
  (∀ v, v ∈ A → hasMatch v B = true) →
  line ∈ generatedRegion A → line ∈ generatedRegion B.
Proof.
  intros Hall. unfold generatedRegion. rewrite !elem_of_app.
  intros [Hin|Hin]; [by left|right].
  apply elem_of_concat in Hin as (l & Hin & (i & -> & Hi)%list_elem_of_fmap).
  destruct (proj1 (hasMatch_true i B) (Hall i Hi)) as (k & Hk & Heq).
  rewrite (rulePair_same_string i k Heq) in Hin.
  apply elem_of_concat. exists (rulePair k). split; [done|].
  apply list_elem_of_fmap. eauto.
Qed.

End SkippedRender.

(** X25. Skipping the render loses no line.  When [isDiff] reports no change
    between the fetched addresses and the snapshot, every line either
    renderer would produce for the fetched addresses is already a line of
    its rendering for the snapshot. *)
Theorem unchanged_means_nothing_new_to_render
    (fs : gmap string File) (rules : string) (newHosts oldHosts : list IP)
    (line : string) :
  isDiff newHosts oldHosts = false →
  (line ∈ KubeNginx.buildNginx newHosts → line ∈ KubeNginx.buildNginx oldHosts)
  ∧ (line ∈ KubeUFW.buildUFW fs newHosts rules →
     line ∈ KubeUFW.buildUFW fs oldHosts rules).
Proof.
  intros [_ Hall]%isDiff_false. split.
  - unfold KubeNginx.buildNginx. rewrite !renderUpstreams_blocks.
    intros (l & Hin & (k & -> & Hk)%list_elem_of_fmap)%elem_of_concat.
    apply elem_of_concat.
    exists (upstreamBlock (KubeNginx.upstream_name k) (KubeNginx.port k) oldHosts).
    split; [by apply (upstreamBlock_matched _ _ newHosts)|].
    apply list_elem_of_fmap. eauto.
  - destruct (os.Open fs rules) as [dat|] eqn:Hopen.
    + rewrite !(buildUFW_readable _ _ _ _ Hopen). cbv zeta. rewrite !elem_of_app.
      intros [Hin|[Hin|Hin]]; [by left| |by right; right].
      right. left. by apply (generatedRegion_matched newHosts).
    + unfold KubeUFW.buildUFW. by rewrite Hopen.
Qed.

Lemma unchanged_means_nothing_new_to_render_witness :
  let newHosts := [Sample.ip2; v4InV6Prefix ++ Sample.ip1] in
  let oldHosts := [Sample.ip1; Sample.ip2] in
  let line := "server 10.0.0.1:32016 weight=100;" in
  isDiff newHosts oldHosts = false
  ∧ (line ∈ KubeNginx.buildNginx newHosts → line ∈ KubeNginx.buildNginx oldHosts).
Proof.
  intros newHosts oldHosts line.
  assert (isDiff newHosts oldHosts = false) as Hsame by reflexivity.
  split; [exact Hsame|].
  exact (proj1 (unchanged_means_nothing_new_to_render ∅ Sample.rules newHosts oldHosts
                  line Hsame)).
Defined.

(** ** The frame of the rules file, on the bytes of the file *)

Section FrameOfFile.

Lemma handedOn_parts (l : string) :
  handedOn l = true →
  (if lastByte l is Some c then Ascii.eqb c "013" else false) = false
  ∧ (N.of_nat (String.length l) <? bufio.MaxScanTokenSize)%N = true.
Proof.
  unfold handedOn. intros [H1 H2]%andb_prop.
  apply negb_true_iff in H1. done.
Qed.

(** Where every line of the file is handed on as it stands, the scanner
    delivers the lines of the file. *)
Lemma Scan_hands_on (dat : string) :
  Forall (fun l => handedOn l = true) (bufio.rawLines dat) →
  bufio.Scan dat = bufio.rawLines dat.
Proof.
  intros Hall. unfold bufio.Scan. rewrite fitting_short.
  - induction Hall as [|l lines Hl Hlines IH]; [done|].
    rewrite fmap_cons, IH. f_equal. apply dropCR_keeps.
    by apply handedOn_parts in Hl as [? _].
  - eapply Forall_impl; [exact Hall|]. intros l Hl.
    by apply handedOn_parts in Hl as [_ ?].
Qed.

End FrameOfFile.

(** C2, as amended.  On a rules file none of whose lines ends in a carriage
    return or is 65536 bytes or longer, and whose lines hold the start
    marker once and, later, the end marker once, the rendering begins with
    the lines of the file up to and including the start marker and ends
    with the lines of the file from the end marker on, byte for byte; what
    lies between is the generated region, which does not depend on the
    file. *)
Theorem buildUFW_keeps_frame_of_file
    (fs : gmap string File) (rules dat : string) (ipList : list IP)
    (pre mid post : list string) :
  os.Open fs rules = Some dat →
  Forall (fun l => handedOn l = true) (bufio.rawLines dat) →
  bufio.rawLines dat = pre ++ startMarker :: mid ++ endMarker :: post →
  (startMarker ∉ pre ++ mid ++ post) →
  (endMarker ∉ pre ++ mid ++ post) →
  KubeUFW.buildUFW fs ipList rules
  = (pre ++ [startMarker]) ++ generatedRegion ipList ++ (endMarker :: post).
Proof.
  intros Hopen Hwhole Hlines Hs He.
  apply (buildUFW_frame_of_scanned_lines fs rules dat ipList pre mid post);
    [done| |done|done].
  by rewrite (Scan_hands_on _ Hwhole).
Qed.

Lemma buildUFW_keeps_frame_of_file_witness :
  let fs : gmap string File := {[ Sample.rules := Sample.file Sample.user_rules ]} in
  let pre := ["*filter"; ":ufw-user-input - [0:0]"] in
  let mid := ["-A ufw-user-input -s 192.0.2.7 -j ACCEPT"] in
  let post := ["COMMIT"] in
  os.Open fs Sample.rules = Some Sample.user_rules
  ∧ Forall (fun l => handedOn l = true) (bufio.rawLines Sample.user_rules)
  ∧ bufio.rawLines Sample.user_rules = pre ++ startMarker :: mid ++ endMarker :: post
  ∧ (startMarker ∉ pre ++ mid ++ post)
  ∧ (endMarker ∉ pre ++ mid ++ post)
  ∧ KubeUFW.buildUFW fs [Sample.ip1; Sample.ip2] Sample.rules
    = (pre ++ [startMarker]) ++ generatedRegion [Sample.ip1; Sample.ip2]
      ++ (endMarker :: post).
Proof.
  intros fs pre mid post.
  assert (os.Open fs Sample.rules = Some Sample.user_rules) as Hopen
    by reflexivity.
  assert (Forall (fun l => handedOn l = true) (bufio.rawLines Sample.user_rules))
    as Hwhole.
  { apply (bool_decide_unpack _). vm_compute. exact I. }
  assert (bufio.rawLines Sample.user_rules
          = pre ++ startMarker :: mid ++ endMarker :: post) as Hlines
    by reflexivity.
  assert (startMarker ∉ pre ++ mid ++ post) as Hs.
  { apply (bool_decide_unpack _). vm_compute. exact I. }
  assert (endMarker ∉ pre ++ mid ++ post) as He.
  { apply (bool_decide_unpack _). vm_compute. exact I. }
  split; [exact Hopen|]. split; [exact Hwhole|]. split; [exact Hlines|].
  split; [exact Hs|]. split; [exact He|].
  exact (buildUFW_keeps_frame_of_file fs Sample.rules Sample.user_rules
           [Sample.ip1; Sample.ip2] pre mid post Hopen Hwhole Hlines Hs He).
Defined.

(** C2 as stated fails on a rules file saved with carriage returns: the
    file's first line is [*filter] followed by a carriage return, each
    marker occurs once, and the rendering begins with [*filter] without the
    carriage return, which is not the line of the file. *)
Lemma buildUFW_drops_carriage_return :
  ¬ frame_kept {[ Sample.rules := Sample.file rules_with_cr ]} Sample.rules [Sample.ip1].
Proof.
  intros Hkept.
  destruct (Hkept rules_with_cr [("*filter" ++ String "013" "")%string] [] ["COMMIT"])
    as [middle Hout].
  - reflexivity.
  - reflexivity.
  - apply (bool_decide_unpack _). vm_compute. exact I.
  - apply (bool_decide_unpack _). vm_compute. exact I.
  - vm_compute in Hout. discriminate Hout.
Qed.

(** A line of 65536 bytes ends the scan: the lines before it are delivered,
    the line and everything behind it are not, and the renderer goes on
    with what it got. *)
Example scan_stops_at_long_line :
  bufio.Scan rules_with_long_line = ["a"]
  ∧ KubeUFW.buildUFW {[ Sample.rules := Sample.file rules_with_long_line ]} [] Sample.rules
    = "a" :: KubeUFW.fixedRules.
Proof. by vm_compute. Qed.
